(** * A three-stage LIDAR pipeline over two single-slot channels

    Shallow embedding of the pipeline driver ([main], [signal_handler],
    [load_data_from_files] and the three stage threads) as an interleaving
    transition system: one transition per statement that touches shared
    state, program points named after the source lines they stand for. *)

From Stdlib Require Import ZArith List String Bool Lia QArith Floats.
Import ListNotations.
Local Open Scope Z_scope.

(** ** Frames (preprocess.h) *)

(** [struct point3d { float x, y, z; }]: the three binary32 values, kept as
    their bit patterns; no statement of the driver looks inside a point. *)
Record point3d := mkPoint { x : Z; y : Z; z : Z }.

(** [struct lidar_data { std::vector<point3d> points; }] *)
Record lidar_data := mkLidar { points : list point3d }.

(** [lidar_data inflight{}]: a value-initialised frame has no points. *)
Definition empty_frame : lidar_data := mkLidar [].

(** ** Time *)

Record timespec := mkTimespec { tv_sec : Z; tv_nsec : Z }.

Definition NSEC_PER_SEC : Z := 1000000000.

(** Nanoseconds denoted by a [timespec]. *)
Definition ts_ns (t : timespec) : Z := tv_sec t * NSEC_PER_SEC + tv_nsec t.

(** What [clock_gettime] can return: a normalised, non-negative time whose
    seconds can still be incremented in a 64-bit [time_t]. *)
Definition timespec_valid (t : timespec) : Prop :=
  0 <= tv_sec t < 2 ^ 63 - 1 /\ 0 <= tv_nsec t < NSEC_PER_SEC.

(** Two's-complement value of a 64-bit [time_t]. *)
Definition wrap_time_t (v : Z) : Z := (v + 2 ^ 63) mod 2 ^ 64 - 2 ^ 63.

(** [struct timespec interval { 0, 100000000 }] of [load_data_thread]. *)
Definition interval : timespec := mkTimespec 0 100000000.

(** Modelled from the spec: utils.h, which defines [timespec_add], is not
    among the sources, and the pipeline below takes the function as a
    parameter.  This is the instance the concrete runs use: the spec reads
    the call as [next_wake += period], so it is the sum of two normalised
    times, normalised again. *)
Definition normalised_add (a b : timespec) : timespec :=
  let ns := tv_nsec a + tv_nsec b in
  if NSEC_PER_SEC <=? ns
  then mkTimespec (tv_sec a + tv_sec b + 1) (ns - NSEC_PER_SEC)
  else mkTimespec (tv_sec a + tv_sec b) ns.

(** Modelled from the spec: utils.h, which defines [sleep_until], is not
    among the sources, and the pipeline below takes it as a parameter.  This
    is the instance the concrete runs use: the spec has the scheduler sleep
    to an absolute time, so the call returns once the clock (in nanoseconds)
    has reached the target, at once when it already has. *)
Definition clock_reached (target : timespec) (clock : Z) : bool :=
  ts_ns target <=? clock.

(** [main], lines 228-230: the clock is read, then
    [initial_time.tv_sec++; initial_time.tv_nsec = 0]. *)
Definition main_initial_time (start : timespec) : timespec :=
  mkTimespec (wrap_time_t (tv_sec start + 1)) 0.

(** ** The frame source, [load_data_from_files] *)

(** The [std::initializer_list] of lines 36-40. *)
Definition files : list string :=
  ["point_cloud1.txt"; "point_cloud2.txt"; "point_cloud3.txt"]%string.

(** [files.size()], a [size_t]. *)
Definition files_size : Z := Z.of_nat (List.length files).

(** Conversions of line 46: [next_file + 1] is an [int], converted to
    [size_t] for the remainder, whose result is stored back into an [int]. *)
Definition wrap_int (v : Z) : Z := (v + 2 ^ 31) mod 2 ^ 32 - 2 ^ 31.
Definition to_size_t (v : Z) : Z := v mod 2 ^ 64.

(** [files.begin()[next_file]]; the index is always in range (see
    [next_file_in_range]), the default only makes the function total. *)
Definition file_at (next_file : Z) : string :=
  nth (Z.to_nat next_file) files ""%string.

(** Line 46: [next_file = (next_file + 1) % files.size()]. *)
Definition advance_next_file (next_file : Z) : Z :=
  wrap_int (to_size_t (wrap_int (next_file + 1)) mod files_size).

(** The value of the static [next_file] after [n] calls, from its
    initialiser 0. *)
Fixpoint next_file_after (n : nat) : Z :=
  match n with
  | O => 0
  | S k => advance_next_file (next_file_after k)
  end.

(** The file name handed to [load_data] by the call number [n], counting
    from 0. *)
Definition nth_loaded_file (n : nat) : string := file_at (next_file_after n).

(** ** Shared state of the pipeline *)

(** The four flows of control that touch the shared state: the three stage
    threads and the SIGINT handler. *)
Inductive agent := Load | Prep | Ident | Handler.

Definition agent_eqb (a b : agent) : bool :=
  match a, b with
  | Load, Load | Prep, Prep | Ident, Ident | Handler, Handler => true
  | _, _ => false
  end.

Definition waits (a : agent) (q : list agent) : bool := existsb (agent_eqb a) q.

(** One single-slot channel ([state->loaded], [state->preprocessed]).  The
    declaring header is not among the sources; the fields are those the
    driver uses.  A mutex is its owner, a condition variable the queue of
    the threads blocked on it. *)
Record channel := mkChannel {
  mutex : option agent;
  data_available : list agent;
  data_is_null : list agent;
  has_data : bool;
  data : lidar_data
}.

Inductive chan_id := Loaded | Preprocessed.

Definition chan_id_eqb (a b : chan_id) : bool :=
  match a, b with
  | Loaded, Loaded | Preprocessed, Preprocessed => true
  | _, _ => false
  end.

(** What the void collaborators leave behind: the contents of their output
    frame.  [failed] records whether the collaborator met an error; its
    signature returns nothing, and no statement of a stage can read it. *)
Record collab := mkCollab { failed : bool; out : lidar_data }.

(** History of the run, newest event first (ghost state: written by the
    transitions, read by no transition). *)
Inductive event :=
| EvLoad (file : string) (r : collab)
| EvPut (c : chan_id) (d : lidar_data)
| EvTake (c : chan_id) (d : lidar_data)
| EvProcess (a : agent) (r : collab)
| EvPublish (d : lidar_data) (clock : Z).

(** ** Program points *)

(** [load_data_thread]; [L72b] is the thread inside [pthread_cond_wait]
    after it has released the mutex, [Lret] either [return nullptr]. *)
Inductive load_pc :=
| L58 | L60 | L63 | L66 | L68 | L70 | L72 | L72b | L74 | L76
| L81 | L82 | L84 | L86 | Lret.

(** [preprocess_discard_thread]. *)
Inductive prep_pc :=
| P96 | P98 | P100 | P102 | P102b | P104 | P106
| P111 | P112 | P113 | P115 | P118
| P120 | P122 | P124 | P124b | P126 | P128
| P133 | P134 | P135 | P137 | Pret.

(** [identify_driveable_thread]. *)
Inductive ident_pc :=
| I147 | I149 | I151 | I153 | I153b | I155 | I157
| I162 | I163 | I164 | I166 | I169 | I171 | Iret.

(** [signal_handler]; [Hidle] is the handler not running. *)
Inductive handler_pc :=
| Hidle | H22 | H23 | H24 | H25 | H27 | H28 | H29 | H30.

(** [struct state] (its header is not among the sources; the fields are
    those the driver uses; [running] only ever holds 0 or 1), the locals of
    the three threads, the handler, the clock, and ghost state. *)
Record state := mkState {
  (* struct state *)
  running : bool;
  loaded : channel;
  preprocessed : channel;
  initial_time : timespec;
  (* static local of load_data_from_files *)
  next_file : Z;
  (* load_data_thread *)
  l_pc : load_pc;
  next_wake : timespec;
  l_inflight : lidar_data;
  (* preprocess_discard_thread *)
  p_pc : prep_pc;
  p_inflight : lidar_data;
  p_outbound : lidar_data;
  (* identify_driveable_thread *)
  i_pc : ident_pc;
  i_inflight : lidar_data;
  i_output : lidar_data;
  (* signal_handler *)
  h_pc : handler_pc;
  (* CLOCK_MONOTONIC, in nanoseconds *)
  now : Z;
  (* ghost *)
  hist : list event;
  cycles : nat;
  sigints : nat
}.

(** ** Field updates *)

Definition set_mutex (c : channel) (m : option agent) : channel :=
  mkChannel m (data_available c) (data_is_null c) (has_data c) (data c).
Definition set_data_available (c : channel) (q : list agent) : channel :=
  mkChannel (mutex c) q (data_is_null c) (has_data c) (data c).
Definition set_data_is_null (c : channel) (q : list agent) : channel :=
  mkChannel (mutex c) (data_available c) q (has_data c) (data c).
Definition set_has_data (c : channel) (b : bool) : channel :=
  mkChannel (mutex c) (data_available c) (data_is_null c) b (data c).
Definition set_data (c : channel) (d : lidar_data) : channel :=
  mkChannel (mutex c) (data_available c) (data_is_null c) (has_data c) d.

Definition set_running (s : state) (b : bool) : state :=
  mkState b (loaded s) (preprocessed s) (initial_time s) (next_file s)
    (l_pc s) (next_wake s) (l_inflight s) (p_pc s) (p_inflight s) (p_outbound s)
    (i_pc s) (i_inflight s) (i_output s) (h_pc s) (now s) (hist s) (cycles s)
    (sigints s).
Definition set_loaded (s : state) (c : channel) : state :=
  mkState (running s) c (preprocessed s) (initial_time s) (next_file s)
    (l_pc s) (next_wake s) (l_inflight s) (p_pc s) (p_inflight s) (p_outbound s)
    (i_pc s) (i_inflight s) (i_output s) (h_pc s) (now s) (hist s) (cycles s)
    (sigints s).
Definition set_preprocessed (s : state) (c : channel) : state :=
  mkState (running s) (loaded s) c (initial_time s) (next_file s)
    (l_pc s) (next_wake s) (l_inflight s) (p_pc s) (p_inflight s) (p_outbound s)
    (i_pc s) (i_inflight s) (i_output s) (h_pc s) (now s) (hist s) (cycles s)
    (sigints s).
Definition set_next_file (s : state) (n : Z) : state :=
  mkState (running s) (loaded s) (preprocessed s) (initial_time s) n
    (l_pc s) (next_wake s) (l_inflight s) (p_pc s) (p_inflight s) (p_outbound s)
    (i_pc s) (i_inflight s) (i_output s) (h_pc s) (now s) (hist s) (cycles s)
    (sigints s).
Definition set_l_pc (s : state) (pc : load_pc) : state :=
  mkState (running s) (loaded s) (preprocessed s) (initial_time s) (next_file s)
    pc (next_wake s) (l_inflight s) (p_pc s) (p_inflight s) (p_outbound s)
    (i_pc s) (i_inflight s) (i_output s) (h_pc s) (now s) (hist s) (cycles s)
    (sigints s).
Definition set_next_wake (s : state) (t : timespec) : state :=
  mkState (running s) (loaded s) (preprocessed s) (initial_time s) (next_file s)
    (l_pc s) t (l_inflight s) (p_pc s) (p_inflight s) (p_outbound s)
    (i_pc s) (i_inflight s) (i_output s) (h_pc s) (now s) (hist s) (cycles s)
    (sigints s).
Definition set_l_inflight (s : state) (d : lidar_data) : state :=
  mkState (running s) (loaded s) (preprocessed s) (initial_time s) (next_file s)
    (l_pc s) (next_wake s) d (p_pc s) (p_inflight s) (p_outbound s)
    (i_pc s) (i_inflight s) (i_output s) (h_pc s) (now s) (hist s) (cycles s)
    (sigints s).
Definition set_p_pc (s : state) (pc : prep_pc) : state :=
  mkState (running s) (loaded s) (preprocessed s) (initial_time s) (next_file s)
    (l_pc s) (next_wake s) (l_inflight s) pc (p_inflight s) (p_outbound s)
    (i_pc s) (i_inflight s) (i_output s) (h_pc s) (now s) (hist s) (cycles s)
    (sigints s).
Definition set_p_inflight (s : state) (d : lidar_data) : state :=
  mkState (running s) (loaded s) (preprocessed s) (initial_time s) (next_file s)
    (l_pc s) (next_wake s) (l_inflight s) (p_pc s) d (p_outbound s)
    (i_pc s) (i_inflight s) (i_output s) (h_pc s) (now s) (hist s) (cycles s)
    (sigints s).
Definition set_p_outbound (s : state) (d : lidar_data) : state :=
  mkState (running s) (loaded s) (preprocessed s) (initial_time s) (next_file s)
    (l_pc s) (next_wake s) (l_inflight s) (p_pc s) (p_inflight s) d
    (i_pc s) (i_inflight s) (i_output s) (h_pc s) (now s) (hist s) (cycles s)
    (sigints s).
Definition set_i_pc (s : state) (pc : ident_pc) : state :=
  mkState (running s) (loaded s) (preprocessed s) (initial_time s) (next_file s)
    (l_pc s) (next_wake s) (l_inflight s) (p_pc s) (p_inflight s) (p_outbound s)
    pc (i_inflight s) (i_output s) (h_pc s) (now s) (hist s) (cycles s)
    (sigints s).
Definition set_i_inflight (s : state) (d : lidar_data) : state :=
  mkState (running s) (loaded s) (preprocessed s) (initial_time s) (next_file s)
    (l_pc s) (next_wake s) (l_inflight s) (p_pc s) (p_inflight s) (p_outbound s)
    (i_pc s) d (i_output s) (h_pc s) (now s) (hist s) (cycles s)
    (sigints s).
Definition set_i_output (s : state) (d : lidar_data) : state :=
  mkState (running s) (loaded s) (preprocessed s) (initial_time s) (next_file s)
    (l_pc s) (next_wake s) (l_inflight s) (p_pc s) (p_inflight s) (p_outbound s)
    (i_pc s) (i_inflight s) d (h_pc s) (now s) (hist s) (cycles s)
    (sigints s).
Definition set_h_pc (s : state) (pc : handler_pc) : state :=
  mkState (running s) (loaded s) (preprocessed s) (initial_time s) (next_file s)
    (l_pc s) (next_wake s) (l_inflight s) (p_pc s) (p_inflight s) (p_outbound s)
    (i_pc s) (i_inflight s) (i_output s) pc (now s) (hist s) (cycles s)
    (sigints s).
Definition set_now (s : state) (t : Z) : state :=
  mkState (running s) (loaded s) (preprocessed s) (initial_time s) (next_file s)
    (l_pc s) (next_wake s) (l_inflight s) (p_pc s) (p_inflight s) (p_outbound s)
    (i_pc s) (i_inflight s) (i_output s) (h_pc s) t (hist s) (cycles s)
    (sigints s).
Definition log (s : state) (e : event) : state :=
  mkState (running s) (loaded s) (preprocessed s) (initial_time s) (next_file s)
    (l_pc s) (next_wake s) (l_inflight s) (p_pc s) (p_inflight s) (p_outbound s)
    (i_pc s) (i_inflight s) (i_output s) (h_pc s) (now s) (e :: hist s) (cycles s)
    (sigints s).
Definition count_cycle (s : state) : state :=
  mkState (running s) (loaded s) (preprocessed s) (initial_time s) (next_file s)
    (l_pc s) (next_wake s) (l_inflight s) (p_pc s) (p_inflight s) (p_outbound s)
    (i_pc s) (i_inflight s) (i_output s) (h_pc s) (now s) (hist s) (S (cycles s))
    (sigints s).
Definition count_sigint (s : state) : state :=
  mkState (running s) (loaded s) (preprocessed s) (initial_time s) (next_file s)
    (l_pc s) (next_wake s) (l_inflight s) (p_pc s) (p_inflight s) (p_outbound s)
    (i_pc s) (i_inflight s) (i_output s) (h_pc s) (now s) (hist s) (cycles s)
    (S (sigints s)).

(** ** pthread primitives *)

(** [pthread_mutex_lock]: returns only when the mutex is free. *)
Definition mutex_lock (a : agent) (c : channel) : option channel :=
  match mutex c with
  | None => Some (set_mutex c (Some a))
  | Some _ => None
  end.

(** [pthread_mutex_unlock]. *)
Definition mutex_unlock (c : channel) : channel := set_mutex c None.

(** [pthread_cond_signal]: the thread at the head of the queue, if there is
    one, stops waiting.  (POSIX lets it wake more than one, and lets a wait
    return with no signal at all; neither is modelled: a schedule here is a
    run in which no such wake-up happens.) *)
Definition cond_signal (q : list agent) : list agent := tl q.

(** First half of [pthread_cond_wait]: the caller joins the queue and the
    mutex is released, atomically. *)
Definition wait_data_available (a : agent) (c : channel) : channel :=
  set_data_available (mutex_unlock c) (data_available c ++ [a]).
Definition wait_data_is_null (a : agent) (c : channel) : channel :=
  set_data_is_null (mutex_unlock c) (data_is_null c ++ [a]).

(** Second half of [pthread_cond_wait]: once signalled (no longer in the
    queue [q]) the caller takes the mutex again before returning. *)
Definition wait_return (a : agent) (q : list agent) (c : channel) : option channel :=
  if waits a q then None else mutex_lock a c.

Definition signal_data_available (c : channel) : channel :=
  set_data_available c (cond_signal (data_available c)).
Definition signal_data_is_null (c : channel) : channel :=
  set_data_is_null c (cond_signal (data_is_null c)).

(** ** The transition system *)

Inductive action :=
| Sched (a : agent)   (* the agent executes its next statement *)
| Tick (d : Z).       (* [d] nanoseconds pass *)

(** [n] consecutive steps of one agent. *)
Definition steps (a : agent) (n : nat) : list action := repeat (Sched a) n.

Section Pipeline.

(** The collaborators declared in preprocess.h, defined elsewhere. *)
Variable load_data : string -> collab.
Variable preprocess_discard : lidar_data -> collab.
Variable identify_driveable : lidar_data -> collab.

(** The helpers of utils.h, which is not among the sources:
    [timespec_add (a, b, result)] as the function from [a] and [b] to
    [result], and [sleep_until] as the test whether a call with the given
    target returns when the clock shows the given value. *)
Variable timespec_add : timespec -> timespec -> timespec.
Variable sleep_until : timespec -> Z -> bool.

(** All that is assumed of [timespec_add]: the result denotes the sum. *)
Hypothesis timespec_add_adds :
  forall a b, ts_ns (timespec_add a b) = ts_ns a + ts_ns b.

(** [load_data_from_files], lines 34-47: the file of index [next_file] is
    loaded into the caller's frame, and the static [next_file] steps to the
    next index.  The result is what the frame holds afterwards, with the new
    value of [next_file]. *)
Definition load_data_from_files (next_file : Z) : collab * Z :=
  (load_data (file_at next_file), advance_next_file next_file).

(** [print_data], lines 202-212: prints the size of the frame and the clock;
    the output is kept as an event of the history. *)
Definition print_data (d : lidar_data) (clock : Z) : event := EvPublish d clock.

(** Line 63, [sleep_until(&next_wake)], returns in this state. *)
Definition sleep_until_returns (s : state) : bool :=
  sleep_until (next_wake s) (now s).

(** [load_data_thread], lines 49-90. *)
Definition load_data_thread (s : state) : option state :=
  match l_pc s with
  | L58 => Some (set_l_pc (set_next_wake s (initial_time s)) L60)
  | L60 => Some (set_l_pc s (if running s then L63 else Lret))
  | L63 => if sleep_until_returns s then Some (set_l_pc s L66) else None
  | L66 =>
      (* lidar_data inflight{}; state->load_data_blocking(&inflight) *)
      let (r, next) := load_data_from_files (next_file s) in
      Some (set_l_pc
              (log (set_next_file (set_l_inflight s (out r)) next)
                 (EvLoad (file_at (next_file s)) r)) L68)
  | L68 =>
      match mutex_lock Load (loaded s) with
      | Some c => Some (set_l_pc (set_loaded s c) L70)
      | None => None
      end
  | L70 => Some (set_l_pc s (if has_data (loaded s) then L72 else L81))
  | L72 => Some (set_l_pc (set_loaded s (wait_data_is_null Load (loaded s))) L72b)
  | L72b =>
      match wait_return Load (data_is_null (loaded s)) (loaded s) with
      | Some c => Some (set_l_pc (set_loaded s c) L74)
      | None => None
      end
  | L74 => Some (set_l_pc s (if running s then L70 else L76))
  | L76 => Some (set_l_pc (set_loaded s (mutex_unlock (loaded s))) Lret)
  | L81 =>
      Some (set_l_pc
              (log (set_loaded s (set_data (loaded s) (l_inflight s)))
                 (EvPut Loaded (l_inflight s))) L82)
  | L82 => Some (set_l_pc (set_loaded s (signal_data_available (loaded s))) L84)
  | L84 => Some (set_l_pc (set_loaded s (mutex_unlock (loaded s))) L86)
  | L86 =>
      Some (set_l_pc
              (count_cycle (set_next_wake s (timespec_add (next_wake s) interval)))
              L60)
  | Lret => None
  end.

(** [preprocess_discard_thread], lines 92-141. *)
Definition preprocess_discard_thread (s : state) : option state :=
  match p_pc s with
  | P96 => Some (set_p_pc s (if running s then P98 else Pret))
  | P98 =>
      match mutex_lock Prep (loaded s) with
      | Some c => Some (set_p_pc (set_loaded s c) P100)
      | None => None
      end
  | P100 => Some (set_p_pc s (if has_data (loaded s) then P111 else P102))
  | P102 => Some (set_p_pc (set_loaded s (wait_data_available Prep (loaded s))) P102b)
  | P102b =>
      match wait_return Prep (data_available (loaded s)) (loaded s) with
      | Some c => Some (set_p_pc (set_loaded s c) P104)
      | None => None
      end
  | P104 => Some (set_p_pc s (if running s then P100 else P106))
  | P106 => Some (set_p_pc (set_loaded s (mutex_unlock (loaded s))) Pret)
  | P111 =>
      Some (set_p_pc
              (log (set_p_inflight s (data (loaded s)))
                 (EvTake Loaded (data (loaded s)))) P112)
  | P112 => Some (set_p_pc (set_loaded s (set_has_data (loaded s) false)) P113)
  | P113 => Some (set_p_pc (set_loaded s (signal_data_is_null (loaded s))) P115)
  | P115 => Some (set_p_pc (set_loaded s (mutex_unlock (loaded s))) P118)
  | P118 =>
      (* lidar_data outbound{}; preprocess_discard(&inflight, &outbound) *)
      let r := preprocess_discard (p_inflight s) in
      Some (set_p_pc (log (set_p_outbound s (out r)) (EvProcess Prep r)) P120)
  | P120 =>
      match mutex_lock Prep (preprocessed s) with
      | Some c => Some (set_p_pc (set_preprocessed s c) P122)
      | None => None
      end
  | P122 => Some (set_p_pc s (if has_data (preprocessed s) then P124 else P133))
  | P124 =>
      Some (set_p_pc (set_preprocessed s (wait_data_is_null Prep (preprocessed s)))
              P124b)
  | P124b =>
      match wait_return Prep (data_is_null (preprocessed s)) (preprocessed s) with
      | Some c => Some (set_p_pc (set_preprocessed s c) P126)
      | None => None
      end
  | P126 => Some (set_p_pc s (if running s then P122 else P128))
  | P128 => Some (set_p_pc (set_preprocessed s (mutex_unlock (preprocessed s))) Pret)
  | P133 =>
      Some (set_p_pc
              (log (set_preprocessed s (set_data (preprocessed s) (p_outbound s)))
                 (EvPut Preprocessed (p_outbound s))) P134)
  | P134 => Some (set_p_pc (set_preprocessed s (set_has_data (preprocessed s) true)) P135)
  | P135 =>
      Some (set_p_pc (set_preprocessed s (signal_data_available (preprocessed s))) P137)
  | P137 => Some (set_p_pc (set_preprocessed s (mutex_unlock (preprocessed s))) P96)
  | Pret => None
  end.

(** [identify_driveable_thread], lines 143-175; [publish_data] is
    [print_data], which reads the clock and prints. *)
Definition identify_driveable_thread (s : state) : option state :=
  match i_pc s with
  | I147 => Some (set_i_pc s (if running s then I149 else Iret))
  | I149 =>
      match mutex_lock Ident (preprocessed s) with
      | Some c => Some (set_i_pc (set_preprocessed s c) I151)
      | None => None
      end
  | I151 => Some (set_i_pc s (if has_data (preprocessed s) then I162 else I153))
  | I153 =>
      Some (set_i_pc (set_preprocessed s (wait_data_available Ident (preprocessed s)))
              I153b)
  | I153b =>
      match wait_return Ident (data_available (preprocessed s)) (preprocessed s) with
      | Some c => Some (set_i_pc (set_preprocessed s c) I155)
      | None => None
      end
  | I155 => Some (set_i_pc s (if running s then I151 else I157))
  | I157 => Some (set_i_pc (set_preprocessed s (mutex_unlock (preprocessed s))) Iret)
  | I162 =>
      Some (set_i_pc
              (log (set_i_inflight s (data (preprocessed s)))
                 (EvTake Preprocessed (data (preprocessed s)))) I163)
  | I163 => Some (set_i_pc (set_preprocessed s (set_has_data (preprocessed s) false)) I164)
  | I164 => Some (set_i_pc (set_preprocessed s (signal_data_is_null (preprocessed s))) I166)
  | I166 => Some (set_i_pc (set_preprocessed s (mutex_unlock (preprocessed s))) I169)
  | I169 =>
      let r := identify_driveable (i_inflight s) in
      Some (set_i_pc (log (set_i_output s (out r)) (EvProcess Ident r)) I171)
  | I171 => Some (set_i_pc (log s (print_data (i_output s) (now s))) I147)
  | Iret => None
  end.

(** [signal_handler], lines 16-32.  It is installed for SIGINT only; a step
    from [Hidle] is the delivery of one SIGINT and executes line 20.  The
    handler is an agent of its own: the signal is taken by a thread that is
    in none of the three stage functions (the main thread, waiting in
    [pthread_join]). *)
Definition signal_handler (s : state) : option state :=
  match h_pc s with
  | Hidle => Some (set_h_pc (set_running s false) H22)
  | H22 =>
      match mutex_lock Handler (loaded s) with
      | Some c => Some (set_h_pc (set_loaded s c) H23)
      | None => None
      end
  | H23 => Some (set_h_pc (set_loaded s (signal_data_available (loaded s))) H24)
  | H24 => Some (set_h_pc (set_loaded s (signal_data_is_null (loaded s))) H25)
  | H25 => Some (set_h_pc (set_loaded s (mutex_unlock (loaded s))) H27)
  | H27 =>
      match mutex_lock Handler (preprocessed s) with
      | Some c => Some (set_h_pc (set_preprocessed s c) H28)
      | None => None
      end
  | H28 =>
      Some (set_h_pc (set_preprocessed s (signal_data_available (preprocessed s))) H29)
  | H29 =>
      Some (set_h_pc (set_preprocessed s (signal_data_is_null (preprocessed s))) H30)
  | H30 =>
      Some (set_h_pc
              (count_sigint (set_preprocessed s (mutex_unlock (preprocessed s))))
              Hidle)
  end.

Definition step (a : action) (s : state) : option state :=
  match a with
  | Sched Load => load_data_thread s
  | Sched Prep => preprocess_discard_thread s
  | Sched Ident => identify_driveable_thread s
  | Sched Handler => signal_handler s
  | Tick d => if 0 <=? d then Some (set_now s (now s + d)) else None
  end.

(** A schedule is executed from left to right; it fails at the first action
    that cannot be taken (an agent that is blocked or has returned). *)
Fixpoint run (sched : list action) (s : state) : option state :=
  match sched with
  | [] => Some s
  | a :: rest =>
      match step a s with
      | Some s' => run rest s'
      | None => None
      end
  end.

(** The state in which [main] creates the three threads (lines 220-236):
    [state_unsafe] has static storage, hence is zero-initialised; the clock
    read [start] at line 228. *)
Definition empty_channel : channel := mkChannel None [] [] false empty_frame.

Definition init (start : timespec) : state :=
  mkState true empty_channel empty_channel (main_initial_time start) 0
    L58 (mkTimespec 0 0) empty_frame
    P96 empty_frame empty_frame
    I147 empty_frame empty_frame
    Hidle (ts_ns start) [] O O.

Definition reachable (s : state) : Prop :=
  exists start sched, timespec_valid start /\ run sched (init start) = Some s.


(** ** Invariants of the transition system *)

(** The statements an agent executes between [pthread_mutex_lock] and the
    matching unlock (or the release inside [pthread_cond_wait]). *)
Definition in_cs_loaded (a : agent) (s : state) : bool :=
  match a with
  | Load => match l_pc s with
            | L70 | L72 | L74 | L76 | L81 | L82 | L84 => true
            | _ => false
            end
  | Prep => match p_pc s with
            | P100 | P102 | P104 | P106 | P111 | P112 | P113 | P115 => true
            | _ => false
            end
  | Ident => false
  | Handler => match h_pc s with H23 | H24 | H25 => true | _ => false end
  end.

Definition in_cs_preprocessed (a : agent) (s : state) : bool :=
  match a with
  | Load => false
  | Prep => match p_pc s with
            | P122 | P124 | P126 | P128 | P133 | P134 | P135 | P137 => true
            | _ => false
            end
  | Ident => match i_pc s with
             | I151 | I153 | I155 | I157 | I162 | I163 | I164 | I166 => true
             | _ => false
             end
  | Handler => match h_pc s with H28 | H29 | H30 => true | _ => false end
  end.

(** The owner of a mutex is inside the corresponding critical section, and
    whoever is inside owns the mutex. *)
Definition locks_ok (s : state) : Prop :=
  (forall a, mutex (loaded s) = Some a <-> in_cs_loaded a s = true) /\
  (forall a, mutex (preprocessed s) = Some a <-> in_cs_preprocessed a s = true).


(** Each condition variable has one thread that can ever wait on it, and it
    is queued only while inside the corresponding [pthread_cond_wait]. *)
Definition queue_of (q : list agent) (a : agent) (parked : bool) : Prop :=
  q = [] \/ (q = [a] /\ parked = true).

Definition queues_ok (s : state) : Prop :=
  queue_of (data_is_null (loaded s)) Load
    (match l_pc s with L72b => true | _ => false end) /\
  queue_of (data_available (loaded s)) Prep
    (match p_pc s with P102b => true | _ => false end) /\
  queue_of (data_is_null (preprocessed s)) Prep
    (match p_pc s with P124b => true | _ => false end) /\
  queue_of (data_available (preprocessed s)) Ident
    (match i_pc s with I153b => true | _ => false end).

(** The agent is blocked on a condition variable. *)
Definition waiting (a : agent) (s : state) : bool :=
  match a with
  | Load => waits Load (data_is_null (loaded s))
  | Prep => waits Prep (data_available (loaded s))
            || waits Prep (data_is_null (preprocessed s))
  | Ident => waits Ident (data_available (preprocessed s))
  | Handler => false
  end.




Definition returned (a : agent) (s : state) : bool :=
  match a with
  | Load => match l_pc s with Lret => true | _ => false end
  | Prep => match p_pc s with Pret => true | _ => false end
  | Ident => match i_pc s with Iret => true | _ => false end
  | Handler => false
  end.


(** The slot of a channel as its consumers and producers see it. *)
Definition slot (c : channel) : bool * lidar_data := (has_data c, data c).

(** The value a channel holds according to the history: the frame of the
    latest store, unless a take came after it. *)
Fixpoint slot_value (c : chan_id) (h : list event) : option lidar_data :=
  match h with
  | [] => None
  | EvPut c' d :: rest => if chan_id_eqb c c' then Some d else slot_value c rest
  | EvTake c' _ :: rest => if chan_id_eqb c c' then None else slot_value c rest
  | _ :: rest => slot_value c rest
  end.

Definition is_some {A : Type} (o : option A) : bool :=
  match o with Some _ => true | None => false end.

Definition chan (c : chan_id) (s : state) : channel :=
  match c with Loaded => loaded s | Preprocessed => preprocessed s end.

(** The channel invariant of the data model, [occupied == value.is_some()],
    read when nobody is inside the channel's critical section. *)
Definition channel_invariant (c : chan_id) (s : state) : Prop :=
  mutex (chan c s) = None -> has_data (chan c s) = is_some (slot_value c (hist s)).

(** ** Proof automation: one case per statement *)

Ltac break_step H :=
  repeat match type of H with
    | context [mutex_lock ?a ?c] =>
        unfold mutex_lock in H; destruct (mutex c) eqn:?; cbv beta iota in H
    | context [wait_return ?a ?q ?c] =>
        unfold wait_return in H; destruct (waits a q) eqn:?; cbv beta iota in H
    | context [sleep_until_returns ?s] =>
        destruct (sleep_until_returns s) eqn:?
    | context [if ?b then _ else _] => destruct b eqn:?
    end;
  try discriminate H;
  injection H as <-.

Ltac step_inv H :=
  match type of H with
  | step ?a ?s = Some ?s' =>
      destruct a as [[ | | | ] | ?];
      cbn [step] in H;
      [ unfold load_data_thread in H; destruct (l_pc s) eqn:?
      | unfold preprocess_discard_thread in H; destruct (p_pc s) eqn:?
      | unfold identify_driveable_thread in H; destruct (i_pc s) eqn:?
      | unfold signal_handler in H; destruct (h_pc s) eqn:?
      | ];
      break_step H
  end.

Ltac use_pc :=
  repeat match goal with
    | E : l_pc ?s = _, H : context [l_pc ?s] |- _ => progress (rewrite E in H)
    | E : p_pc ?s = _, H : context [p_pc ?s] |- _ => progress (rewrite E in H)
    | E : i_pc ?s = _, H : context [i_pc ?s] |- _ => progress (rewrite E in H)
    | E : h_pc ?s = _, H : context [h_pc ?s] |- _ => progress (rewrite E in H)
    | E : l_pc ?s = _ |- context [l_pc ?s] => rewrite E
    | E : p_pc ?s = _ |- context [p_pc ?s] => rewrite E
    | E : i_pc ?s = _ |- context [i_pc ?s] => rewrite E
    | E : h_pc ?s = _ |- context [h_pc ?s] => rewrite E
    end.

(** An invariant of every step is an invariant of every schedule. *)
Lemma run_invariant (P : state -> Prop) :
  (forall a s s', P s -> step a s = Some s' -> P s') ->
  forall sched s s', P s -> run sched s = Some s' -> P s'.
Proof.
  intros Hstep sched. induction sched as [|a rest IH]; intros s s' HP Hrun.
  - injection Hrun as <-. exact HP.
  - cbn [run] in Hrun. destruct (step a s) as [s1|] eqn:E; [|discriminate].
    eapply IH; [|exact Hrun]. eapply Hstep; eauto.
Qed.

Lemma run_app sched1 sched2 s :
  run (sched1 ++ sched2) s =
  match run sched1 s with Some s1 => run sched2 s1 | None => None end.
Proof.
  revert s. induction sched1 as [|a rest IH]; intros s; cbn [run app]; [reflexivity|].
  destruct (step a s); [apply IH|reflexivity].
Qed.

Lemma reachable_invariant (P : state -> Prop) :
  (forall start, timespec_valid start -> P (init start)) ->
  (forall a s s', P s -> step a s = Some s' -> P s') ->
  forall s, reachable s -> P s.
Proof.
  intros Hinit Hstep s (start & sched & Hv & Hrun).
  eapply run_invariant; eauto.
Qed.

Lemma reachable_run sched s s' :
  reachable s -> run sched s = Some s' -> reachable s'.
Proof.
  intros (start & sched0 & Hv & Hrun0) Hrun.
  exists start, (sched0 ++ sched). split; [exact Hv|].
  rewrite run_app, Hrun0. exact Hrun.
Qed.

Lemma locks_ok_step a s s' : locks_ok s -> step a s = Some s' -> locks_ok s'.
Proof.
  intros [H1 H2] H.
  pose proof (H1 Load) as L1. pose proof (H1 Prep) as L2.
  pose proof (H1 Ident) as L3. pose proof (H1 Handler) as L4.
  pose proof (H2 Load) as M1. pose proof (H2 Prep) as M2.
  pose proof (H2 Ident) as M3. pose proof (H2 Handler) as M4.
  clear H1 H2.
  step_inv H.
  all: split; intros b; destruct b; cbn in *; use_pc;
    repeat match goal with E : mutex _ = _ |- _ => rewrite E in * end;
    intuition congruence.
Qed.

Lemma locks_ok_init start : locks_ok (init start).
Proof. split; intros a; destruct a; cbn; split; discriminate. Qed.

Lemma reachable_locks_ok s : reachable s -> locks_ok s.
Proof.
  apply reachable_invariant; [intros; apply locks_ok_init|apply locks_ok_step].
Qed.

Lemma queue_of_tl q a b : queue_of q a b -> queue_of (cond_signal q) a b.
Proof. intros [->|[-> _]]; left; reflexivity. Qed.

Lemma queue_of_any q a b b' :
  queue_of q a b -> (b = true -> b' = true) -> queue_of q a b'.
Proof. intros [->|[-> Hb]] Himp; [left|right]; auto. Qed.

Lemma queue_of_enter q a : queue_of q a false -> queue_of (q ++ [a]) a true.
Proof. intros [->|[_ Hb]]; [right; auto|discriminate]. Qed.

Lemma queue_of_leave q a b :
  queue_of q a b -> waits a q = false -> queue_of q a false.
Proof.
  intros [->|[-> _]] Hw; [left; reflexivity|].
  cbn in Hw. destruct a; discriminate.
Qed.

Lemma queues_ok_step a s s' : queues_ok s -> step a s = Some s' -> queues_ok s'.
Proof.
  intros (H1 & H2 & H3 & H4) H. step_inv H.
  all: unfold queues_ok; cbn; use_pc.
  all: repeat split.
  all: first
         [ assumption
         | apply queue_of_tl; assumption
         | apply queue_of_enter; assumption
         | eapply queue_of_leave; eassumption
         | eapply queue_of_any; [eassumption|discriminate] ].
Qed.

Lemma queues_ok_init start : queues_ok (init start).
Proof. repeat split; left; reflexivity. Qed.

Lemma reachable_queues_ok s : reachable s -> queues_ok s.
Proof.
  apply reachable_invariant; [intros; apply queues_ok_init|apply queues_ok_step].
Qed.

(** *** Cancellation *)


Lemma running_false_step a s s' :
  running s = false -> step a s = Some s' -> running s' = false.
Proof.
  intros Hr H. step_inv H; cbn; first [assumption|reflexivity|discriminate].
Qed.









(** No statement of the load thread writes [loaded.has_data]. *)
Lemma load_data_thread_keeps_has_data s s' :
  load_data_thread s = Some s' -> has_data (loaded s') = has_data (loaded s).
Proof.
  unfold load_data_thread. intros H.
  destruct (l_pc s); break_step H; cbn; congruence.
Qed.

(** *** Timing *)

Lemma wrap_time_t_small v : - 2 ^ 63 <= v < 2 ^ 63 -> wrap_time_t v = v.
Proof.
  intros H. unfold wrap_time_t. rewrite Z.mod_small; lia.
Qed.

Lemma main_initial_time_valid start :
  timespec_valid start ->
  main_initial_time start = mkTimespec (tv_sec start + 1) 0.
Proof.
  intros [Hs Hn]. unfold main_initial_time. rewrite wrap_time_t_small; [reflexivity|lia].
Qed.

(** [next_wake] is [initial_time] plus one [interval] per completed cycle. *)
Definition wake_ok (s : state) : Prop :=
  match l_pc s with
  | L58 => cycles s = O
  | _ =>
      ts_ns (next_wake s) = ts_ns (initial_time s) + Z.of_nat (cycles s) * ts_ns interval
  end.

Lemma wake_ok_step a s s' : wake_ok s -> step a s = Some s' -> wake_ok s'.
Proof.
  intros Hw H. unfold wake_ok in Hw. step_inv H.
  all: unfold wake_ok; cbn -[Z.of_nat Z.mul Z.add ts_ns interval];
    use_pc; try assumption.
  - (* line 58 *) rewrite Hw. cbn. lia.
  - (* line 86 *) rewrite timespec_add_adds, Hw. lia.
Qed.

Lemma wake_ok_init start : wake_ok (init start).
Proof. reflexivity. Qed.


(** *** The frame source *)

(** The calls of [load_data], oldest first: the file name and what the call
    left in the frame. *)
Fixpoint loads (h : list event) : list (string * collab) :=
  match h with
  | [] => []
  | EvLoad f r :: rest => loads rest ++ [(f, r)]
  | _ :: rest => loads rest
  end.

(** The call number [n] of the frame source. *)
Definition nth_load (n : nat) : string * collab :=
  (nth_loaded_file n, load_data (nth_loaded_file n)).

Lemma advance_next_file_spec n :
  0 <= n < 3 -> advance_next_file n = (n + 1) mod 3.
Proof.
  intros H. unfold advance_next_file, wrap_int, to_size_t, files_size; cbn.
  assert (n = 0 \/ n = 1 \/ n = 2) as [->|[->| ->]] by lia; reflexivity.
Qed.

Lemma next_file_after_spec n : next_file_after n = Z.of_nat n mod 3.
Proof.
  induction n as [|n IH]; [reflexivity|].
  cbn [next_file_after]. rewrite IH, advance_next_file_spec.
  - rewrite Nat2Z.inj_succ. unfold Z.succ. rewrite Zplus_mod_idemp_l. reflexivity.
  - apply Z.mod_pos_bound. lia.
Qed.

Lemma next_file_in_range n : 0 <= next_file_after n < files_size.
Proof. rewrite next_file_after_spec. apply Z.mod_pos_bound. reflexivity. Qed.

Lemma nth_loaded_file_spec n : nth_loaded_file n = nth (n mod 3) files ""%string.
Proof.
  unfold nth_loaded_file, file_at. rewrite next_file_after_spec.
  f_equal. change 3 with (Z.of_nat 3).
  rewrite <- Nat2Z.inj_mod. apply Nat2Z.id.
Qed.

Definition files_ok (s : state) : Prop :=
  next_file s = next_file_after (List.length (loads (hist s))) /\
  loads (hist s) = map nth_load (seq 0 (List.length (loads (hist s)))).

Lemma files_ok_step a s s' : files_ok s -> step a s = Some s' -> files_ok s'.
Proof.
  intros [H1 H2] H. step_inv H.
  all: unfold files_ok; cbn; try (split; assumption).
  (* line 66 *)
  rewrite length_app, Nat.add_comm. cbn [List.length plus]. split.
  - rewrite H1. reflexivity.
  - rewrite seq_S, map_app, <- H2. cbn. unfold nth_load, nth_loaded_file.
    rewrite H1. reflexivity.
Qed.

Lemma files_ok_init start : files_ok (init start).
Proof. split; reflexivity. Qed.

Lemma reachable_files_ok s : reachable s -> files_ok s.
Proof.
  apply reachable_invariant; [intros; apply files_ok_init|apply files_ok_step].
Qed.

(** *** The slot of [loaded] *)

(** No statement sets [loaded.has_data]: the consumer of [loaded] never
    gets past its wait loop, and nothing reaches [preprocessed] or the sink. *)
Definition starved (s : state) : Prop :=
  has_data (loaded s) = false /\
  has_data (preprocessed s) = false /\
  match p_pc s with
  | P96 | P98 | P100 | P102 | P102b | P104 | P106 | Pret => True
  | _ => False
  end /\
  match i_pc s with
  | I147 | I149 | I151 | I153 | I153b | I155 | I157 | Iret => True
  | _ => False
  end /\
  Forall (fun e => match e with
                   | EvLoad _ _ | EvPut Loaded _ => True
                   | _ => False
                   end) (hist s).

Lemma starved_step a s s' : starved s -> step a s = Some s' -> starved s'.
Proof.
  intros (H1 & H2 & H3 & H4 & H5) H. step_inv H.
  all: unfold starved; cbn; use_pc; try contradiction.
  all: repeat split; try assumption; try congruence.
  all: constructor; [exact I|assumption].
Qed.

Lemma starved_init start : starved (init start).
Proof. repeat split; constructor. Qed.

Lemma reachable_starved s : reachable s -> starved s.
Proof.
  apply reachable_invariant; [intros; apply starved_init|apply starved_step].
Qed.

(** The sink is never called. *)
Lemma nothing_is_published s d clock :
  reachable s -> ~ In (EvPublish d clock) (hist s).
Proof.
  intros Hr Hin. destruct (reachable_starved s Hr) as (_ & _ & _ & _ & HF).
  rewrite Forall_forall in HF. exact (HF _ Hin).
Qed.

(** The put of [preprocess_discard_thread], lines 133-134, does what the put
    of [load_data_thread] omits: it marks the slot occupied. *)
Lemma preprocessed_put_marks_slot_occupied s :
  p_pc s = P133 ->
  exists s', run [Sched Prep; Sched Prep] s = Some s' /\
    p_pc s' = P135 /\
    data (preprocessed s') = p_outbound s /\
    has_data (preprocessed s') = true /\
    slot_value Preprocessed (hist s') = Some (p_outbound s).
Proof.
  intros E. cbn [run step]. unfold preprocess_discard_thread at 1. rewrite E.
  unfold preprocess_discard_thread. cbn. eexists. split; [reflexivity|]. cbn. auto.
Qed.

(** *** The slot of [preprocessed] *)

(** The history of a channel that behaves as a single-slot FIFO: every store
    found the channel empty, and every take removed the value of the latest
    store. *)
Fixpoint fifo (c : chan_id) (h : list event) : Prop :=
  match h with
  | [] => True
  | EvPut c' _ :: rest =>
      (if chan_id_eqb c c' then slot_value c rest = None else True) /\ fifo c rest
  | EvTake c' d :: rest =>
      (if chan_id_eqb c c' then slot_value c rest = Some d else True) /\ fifo c rest
  | _ :: rest => fifo c rest
  end.

(** The flag of [preprocessed] follows the history, except between the
    store and [has_data = true] (line 134) and between the copy and
    [has_data = false] (line 163); [data] is the value held. *)
Definition preprocessed_ok (s : state) : Prop :=
  fifo Preprocessed (hist s) /\
  has_data (preprocessed s)
  = match p_pc s, i_pc s with
    | P134, _ => false
    | _, I163 => true
    | _, _ => is_some (slot_value Preprocessed (hist s))
    end /\
  (p_pc s = P134 ->
   slot_value Preprocessed (hist s) = Some (data (preprocessed s))) /\
  (i_pc s = I163 -> slot_value Preprocessed (hist s) = None) /\
  (forall d, slot_value Preprocessed (hist s) = Some d ->
             data (preprocessed s) = d) /\
  (p_pc s = P133 -> has_data (preprocessed s) = false) /\
  (i_pc s = I162 -> has_data (preprocessed s) = true).

Ltac mutex_clash :=
  match goal with
  | A : mutex ?c = Some Prep <-> true = true,
    B : mutex ?c = Some Ident <-> true = true |- _ =>
      exfalso;
      let X := fresh in let Y := fresh in
      assert (X := proj2 A eq_refl); assert (Y := proj2 B eq_refl);
      rewrite X in Y; discriminate Y
  end.

Ltac split_pcs :=
  repeat match goal with
    | H : context [match i_pc ?s with _ => _ end] |- _ => destruct (i_pc s) eqn:?
    | |- context [match i_pc ?s with _ => _ end] => destruct (i_pc s) eqn:?
    | H : context [match p_pc ?s with _ => _ end] |- _ => destruct (p_pc s) eqn:?
    | |- context [match p_pc ?s with _ => _ end] => destruct (p_pc s) eqn:?
    end.

Ltac use_refl :=
  repeat match goal with
    | H : ?x = ?x -> _ |- _ => specialize (H eq_refl)
    end.

Lemma preprocessed_ok_step a s s' :
  locks_ok s -> preprocessed_ok s -> step a s = Some s' -> preprocessed_ok s'.
Proof.
  intros [_ HL] (Hf & Hflag & H134 & H163 & Hd & H133 & H162) H.
  pose proof (HL Prep) as M2. pose proof (HL Ident) as M3. clear HL.
  step_inv H.
  all: unfold preprocessed_ok; cbn in *; use_pc; cbn in *.
  all: try (repeat split; (assumption || discriminate || (intros; congruence))).
  all: split_pcs; cbn in *; try mutex_clash; use_refl;
    destruct (slot_value Preprocessed (hist s)) eqn:Ev; cbn in *;
    repeat split; intros; try discriminate; try congruence; auto.
  all: f_equal; symmetry; apply Hd; reflexivity.
Qed.

Lemma preprocessed_ok_init start : preprocessed_ok (init start).
Proof. repeat split; try discriminate. Qed.

(** From any state where the [preprocessed] channel is consistent, it stays
    so: its history is that of a single-slot FIFO, and when nobody is inside
    its critical section the flag says whether it holds a value. *)
Lemma preprocessed_is_single_slot sched s s' :
  locks_ok s -> preprocessed_ok s -> run sched s = Some s' ->
  fifo Preprocessed (hist s') /\ channel_invariant Preprocessed s'.
Proof.
  intros HL Hp Hrun.
  assert (H : locks_ok s' /\ preprocessed_ok s').
  { apply (run_invariant (fun t => locks_ok t /\ preprocessed_ok t))
      with (sched := sched) (s := s); auto.
    intros a t t' [H1 H2] Hstep. split.
    - eapply locks_ok_step; eauto.
    - eapply preprocessed_ok_step; eauto. }
  destruct H as [[_ HL'] (Hf & Hflag & _)]. split; [exact Hf|].
  intros Hm. cbn in Hm |- *. rewrite Hflag.
  pose proof (HL' Prep) as M2. pose proof (HL' Ident) as M3.
  rewrite Hm in M2, M3. cbn in M2, M3.
  destruct (p_pc s') eqn:Ep; try reflexivity;
    try (destruct M2 as [_ M2]; discriminate (M2 eq_refl)).
  all: destruct (i_pc s') eqn:Ei; try reflexivity;
    destruct M3 as [_ M3]; discriminate (M3 eq_refl).
Qed.


(** ** Properties of the pipeline *)




(** C10. The n-th call of the frame source (counting from 0) in any run of
    the pipeline reads the file of index [n mod 3] of the three fixed names;
    the sequence of file names has period 3, and so has the sequence of
    acquired frames, [load_data] being a function of the name. *)
Theorem frame_source_round_robin s n f r :
  reachable s ->
  nth_error (loads (hist s)) n = Some (f, r) ->
  nth_error files (n mod 3) = Some f /\
  r = load_data f /\
  f = nth_loaded_file n /\
  nth_loaded_file (n + 3) = nth_loaded_file n /\
  (forall f' r', nth_error (loads (hist s)) (n + 3) = Some (f', r') ->
                 f' = f /\ r' = r) /\
  files = ["point_cloud1.txt"; "point_cloud2.txt"; "point_cloud3.txt"]%string.
Proof.
  intros Hr Hn. destruct (reachable_files_ok s Hr) as [_ H].
  assert (Hp : forall m, nth_loaded_file (m + 3) = nth_loaded_file m).
  { intros m. rewrite !nth_loaded_file_spec. f_equal.
    replace (m + 3)%nat with (m + 1 * 3)%nat by lia.
    apply Nat.Div0.mod_add. }
  assert (Hnth : forall m p, nth_error (loads (hist s)) m = Some p -> p = nth_load m).
  { intros m p Hm.
    assert (Hlt : (m < List.length (loads (hist s)))%nat).
    { apply nth_error_Some. congruence. }
    rewrite H in Hm. rewrite nth_error_map, nth_error_seq in Hm.
    apply Nat.ltb_lt in Hlt. rewrite Hlt in Hm.
    change (Some (nth_load m) = Some p) in Hm. congruence. }
  apply Hnth in Hn. unfold nth_load in Hn. injection Hn as -> ->.
  assert (Hm : (n mod 3 < 3)%nat) by (apply Nat.mod_upper_bound; discriminate).
  split; [|split; [reflexivity|split; [reflexivity|split; [apply Hp|split]]]].
  - rewrite nth_loaded_file_spec.
    destruct (n mod 3)%nat as [|[|[|k]]]; try reflexivity; lia.
  - intros f' r' Hn'. apply Hnth in Hn'. unfold nth_load in Hn'.
    injection Hn' as -> ->. rewrite Hp. split; reflexivity.
  - reflexivity.
Qed.


(** C5 (as the code has it). The first wake time is the whole second that
    follows the second in which [main] read the clock: it is later than the
    start by more than 0 and at most 1 s, it is one period (100 ms) after the
    start only when the start's nanoseconds are 900000000, and it is the time
    the load thread first sleeps to, still ahead of the clock when the
    threads are created. *)
Theorem first_wake_is_next_whole_second start :
  timespec_valid start ->
  initial_time (init start) = mkTimespec (tv_sec start + 1) 0 /\
  ts_ns start < ts_ns (initial_time (init start)) <= ts_ns start + NSEC_PER_SEC /\
  (ts_ns (initial_time (init start)) = ts_ns start + ts_ns interval <->
   tv_nsec start = 900000000) /\
  exists s, step (Sched Load) (init start) = Some s /\
            next_wake s = initial_time (init start) /\
            now s < ts_ns (next_wake s).
Proof.
  intros Hv. pose proof (main_initial_time_valid start Hv) as E.
  destruct Hv as [Hs Hn].
  assert (Ei : initial_time (init start) = mkTimespec (tv_sec start + 1) 0)
    by exact E.
  rewrite Ei. split; [reflexivity|].
  unfold ts_ns, NSEC_PER_SEC, interval in *. cbn [tv_sec tv_nsec].
  split; [lia|]. split; [lia|].
  eexists. split; [reflexivity|].
  split; [exact E|].
  unfold init.
  cbn [next_wake set_l_pc set_next_wake now initial_time].
  rewrite E. unfold ts_ns, NSEC_PER_SEC. cbn [tv_sec tv_nsec].
  lia.
Qed.












(** The state a schedule leads to; the starting state when the schedule
    cannot be executed. *)
Definition state_after (sched : list action) (s : state) : state :=
  match run sched s with
  | Some s' => s'
  | None => s
  end.




(** ** Further properties of the driver *)

(** *** Locks *)

(** X1. Mutual exclusion: in every run, two different agents are never
    both between the lock and the unlock of the same channel. *)
Theorem critical_sections_exclude s a b :
  reachable s -> a <> b ->
  in_cs_loaded a s && in_cs_loaded b s = false /\
  in_cs_preprocessed a s && in_cs_preprocessed b s = false.
Proof.
  intros Hr Hab. destruct (reachable_locks_ok s Hr) as [H1 H2].
  split.
  - destruct (in_cs_loaded a s) eqn:Ea; [|reflexivity].
    destruct (in_cs_loaded b s) eqn:Eb; [|reflexivity].
    apply H1 in Ea. apply H1 in Eb. congruence.
  - destruct (in_cs_preprocessed a s) eqn:Ea; [|reflexivity].
    destruct (in_cs_preprocessed b s) eqn:Eb; [|reflexivity].
    apply H2 in Ea. apply H2 in Eb. congruence.
Qed.


(** *** Condition variables *)

(** X3. At most one thread ever waits on a condition, always the same one,
    and only from inside the corresponding [pthread_cond_wait]: the load
    thread on [loaded.data_is_null] (line 72), the preprocess thread on
    [loaded.data_available] (line 102) or [preprocessed.data_is_null]
    (line 124), the identify thread on [preprocessed.data_available]
    (line 153).  So a [pthread_cond_signal] wakes every waiter there is. *)
Theorem one_waiter_per_condition s :
  reachable s ->
  (data_is_null (loaded s) = [] \/
   data_is_null (loaded s) = [Load] /\ l_pc s = L72b) /\
  (data_available (loaded s) = [] \/
   data_available (loaded s) = [Prep] /\ p_pc s = P102b) /\
  (data_is_null (preprocessed s) = [] \/
   data_is_null (preprocessed s) = [Prep] /\ p_pc s = P124b) /\
  (data_available (preprocessed s) = [] \/
   data_available (preprocessed s) = [Ident] /\ i_pc s = I153b) /\
  cond_signal (data_is_null (loaded s)) = [] /\
  cond_signal (data_available (loaded s)) = [] /\
  cond_signal (data_is_null (preprocessed s)) = [] /\
  cond_signal (data_available (preprocessed s)) = [].
Proof.
  intros Hr. destruct (reachable_queues_ok s Hr) as (H1 & H2 & H3 & H4).
  repeat apply conj.
  - destruct H1 as [E|[E P]]; [left; exact E|right; split; [exact E|]].
    destruct (l_pc s); try discriminate P; reflexivity.
  - destruct H2 as [E|[E P]]; [left; exact E|right; split; [exact E|]].
    destruct (p_pc s); try discriminate P; reflexivity.
  - destruct H3 as [E|[E P]]; [left; exact E|right; split; [exact E|]].
    destruct (p_pc s); try discriminate P; reflexivity.
  - destruct H4 as [E|[E P]]; [left; exact E|right; split; [exact E|]].
    destruct (i_pc s); try discriminate P; reflexivity.
  - destruct H1 as [E|[E _]]; rewrite E; reflexivity.
  - destruct H2 as [E|[E _]]; rewrite E; reflexivity.
  - destruct H3 as [E|[E _]]; rewrite E; reflexivity.
  - destruct H4 as [E|[E _]]; rewrite E; reflexivity.
Qed.

(** *** The [running] flag *)

(** [running] is 1 exactly until the first SIGINT is delivered; a thread is
    on a cancelled path or has returned only when [running] is 0. *)
Definition running_ok (s : state) : Prop :=
  (running s = true <-> h_pc s = Hidle /\ sigints s = O) /\
  (match l_pc s with L76 | Lret => running s = false | _ => True end) /\
  (match p_pc s with P106 | P128 | Pret => running s = false | _ => True end) /\
  (match i_pc s with I157 | Iret => running s = false | _ => True end).

Lemma running_ok_step a s s' : running_ok s -> step a s = Some s' -> running_ok s'.
Proof.
  intros ([H1 H2] & Hl & Hp & Hi) H. step_inv H.
  all: unfold running_ok; cbn; use_pc.
  all: split; [|split; [|split]].
  all: try assumption; try exact I.
  all: try (destruct (running s) eqn:Er; try discriminate;
            solve [intuition (try discriminate; try congruence)]).
  all: try (destruct (l_pc s); solve [exact I|reflexivity]).
  all: try (destruct (p_pc s); solve [exact I|reflexivity]).
  all: try (destruct (i_pc s); solve [exact I|reflexivity]).
Qed.

Lemma running_ok_init start : running_ok (init start).
Proof. unfold running_ok; cbn; tauto. Qed.

Lemma reachable_running_ok s : reachable s -> running_ok s.
Proof.
  apply reachable_invariant; [intros; apply running_ok_init|apply running_ok_step].
Qed.

(** X4. [running] is 1 exactly as long as no SIGINT has been delivered, and
    nothing sets it back: once 0 it is 0 in every later state. *)
Theorem running_until_first_sigint s :
  reachable s ->
  (running s = true <-> h_pc s = Hidle /\ sigints s = O) /\
  forall sched s', run sched s = Some s' -> running s = false ->
                   running s' = false.
Proof.
  intros Hr. split; [apply (reachable_running_ok s Hr)|].
  intros sched s' Hrun H0.
  apply (run_invariant (fun t => running t = false)) with (sched := sched) (s := s);
    auto.
  intros a t t'. apply running_false_step.
Qed.

(** X5. No stage thread returns while [running] is 1: the joins of [main]
    (lines 238-240) can only be passed after a SIGINT. *)
Theorem threads_return_only_after_sigint s a :
  reachable s -> returned a s = true ->
  running s = false /\ (h_pc s <> Hidle \/ sigints s <> O).
Proof.
  intros Hr Hret. destruct (reachable_running_ok s Hr) as ([H1 H2] & Hl & Hp & Hi).
  assert (H0 : running s = false).
  { destruct a; cbn in Hret; try discriminate.
    - destruct (l_pc s); try discriminate; exact Hl.
    - destruct (p_pc s); try discriminate; exact Hp.
    - destruct (i_pc s); try discriminate; exact Hi. }
  split; [exact H0|].
  destruct (h_pc s) eqn:Eh; try (left; discriminate).
  destruct (sigints s) eqn:Es; [|right; discriminate].
  rewrite (proj2 (conj H1 H2) (conj eq_refl eq_refl)) in H0. discriminate.
Qed.

(** *** What the missing [has_data = true] does to a run *)

(** X6. In every run both slots stay empty as their flags tell it, and the
    history holds nothing but loads and stores into [loaded]: no take ever
    succeeds, [preprocess_discard] and [identify_driveable] are never
    called, nothing is stored into [preprocessed] and [publish_data] is
    never called. *)
Theorem consumers_never_get_a_frame s :
  reachable s ->
  has_data (loaded s) = false /\
  has_data (preprocessed s) = false /\
  (forall c d, ~ In (EvTake c d) (hist s)) /\
  (forall a r, ~ In (EvProcess a r) (hist s)) /\
  (forall d, ~ In (EvPut Preprocessed d) (hist s)) /\
  (forall d clock, ~ In (EvPublish d clock) (hist s)).
Proof.
  intros Hr. destruct (reachable_starved s Hr) as (H1 & H2 & _ & _ & HF).
  rewrite Forall_forall in HF.
  split; [exact H1|]. split; [exact H2|].
  repeat split; intros; intros Hin; exact (HF _ Hin).
Qed.

(** The load thread never finds its slot occupied. *)
Definition producer_free (s : state) : Prop :=
  has_data (loaded s) = false /\
  match l_pc s with
  | L72 | L72b | L74 | L76 => False
  | _ => True
  end.

Lemma producer_free_step a s s' :
  producer_free s -> step a s = Some s' -> producer_free s'.
Proof.
  intros [H1 H2] H. step_inv H.
  all: unfold producer_free; cbn; use_pc; try contradiction.
  all: split; try assumption; try exact I; try reflexivity; try congruence.
Qed.

Lemma producer_free_init start : producer_free (init start).
Proof. split; [reflexivity|exact I]. Qed.

Lemma reachable_producer_free s : reachable s -> producer_free s.
Proof.
  apply reachable_invariant;
    [intros; apply producer_free_init|apply producer_free_step].
Qed.

(** X7. The load thread is never held back by its consumer: it never enters
    the wait loop of lines 70-79, is never queued on [loaded.data_is_null],
    and returns only through its loop head. *)
Theorem load_thread_never_waits s :
  reachable s ->
  waiting Load s = false /\
  data_is_null (loaded s) = [] /\
  match l_pc s with
  | L72 | L72b | L74 | L76 => False
  | _ => True
  end.
Proof.
  intros Hr. destruct (reachable_producer_free s Hr) as [_ Hpc].
  destruct (reachable_queues_ok s Hr) as (H1 & _).
  assert (E : data_is_null (loaded s) = []).
  { destruct H1 as [E|[_ P]]; [exact E|].
    destruct (l_pc s); try discriminate P. contradiction. }
  cbn. rewrite E. repeat split. exact Hpc.
Qed.

(** The frame of the call number [k] of the frame source, and what
    [loaded.data] holds after [n] stores. *)
Definition frame (k : nat) : lidar_data := out (load_data (nth_loaded_file k)).

Definition stored_frame (n : nat) : lidar_data :=
  match n with
  | O => empty_frame
  | S j => frame j
  end.

(** The stores of line 81 executed so far. *)
Definition stores (s : state) : nat :=
  match l_pc s with
  | L82 | L84 | L86 => S (cycles s)
  | _ => cycles s
  end.

Definition frames_ok (s : state) : Prop :=
  has_data (loaded s) = false /\
  next_file s = next_file_after (List.length (loads (hist s))) /\
  data (loaded s) = stored_frame (stores s) /\
  match l_pc s with
  | L58 | L60 | L63 | L66 | Lret => List.length (loads (hist s)) = cycles s
  | L68 | L70 | L81 | L82 | L84 | L86 =>
      List.length (loads (hist s)) = S (cycles s) /\ l_inflight s = frame (cycles s)
  | L72 | L72b | L74 | L76 => False
  end.

Lemma frames_ok_step a s s' : frames_ok s -> step a s = Some s' -> frames_ok s'.
Proof.
  intros (H1 & H2 & H3 & H4) H. step_inv H.
  all: unfold frames_ok, stores in *; cbn -[frame stored_frame file_at] in *; use_pc;
    cbn -[frame stored_frame file_at] in *; try contradiction.
  all: try (repeat split; (assumption || congruence || tauto)).
  (* line 66 *)
  rewrite length_app, Nat.add_comm. cbn [List.length plus].
  repeat split; try assumption; try congruence.
  - rewrite H2. reflexivity.
  - unfold frame, nth_loaded_file. rewrite H2, H4. reflexivity.
Qed.

Lemma frames_ok_init start : frames_ok (init start).
Proof. repeat split. Qed.

Lemma reachable_frames_ok s : reachable s -> frames_ok s.
Proof.
  apply reachable_invariant; [intros; apply frames_ok_init|apply frames_ok_step].
Qed.

(** X8. [loaded.data] always holds the frame of the latest store, never
    taken and overwritten by the next one: empty before the first store of
    line 81, and after [j + 1] stores what [load_data] left for the file of
    index [j mod 3]; one frame is loaded per store. *)
Theorem loaded_holds_latest_frame s :
  reachable s ->
  match stores s with
  | O => data (loaded s) = empty_frame
  | S j =>
      data (loaded s) = out (load_data (nth (j mod 3) files ""%string)) /\
      nth_error (loads (hist s)) j
      = Some (nth (j mod 3) files ""%string,
              load_data (nth (j mod 3) files ""%string))
  end.
Proof.
  intros Hr. destruct (reachable_frames_ok s Hr) as (_ & _ & H3 & H4).
  destruct (reachable_files_ok s Hr) as [_ HL].
  destruct (stores s) as [|j] eqn:Es; [exact H3|].
  split.
  - rewrite H3. cbn. unfold frame. rewrite nth_loaded_file_spec. reflexivity.
  - assert (Hlt : (j < List.length (loads (hist s)))%nat).
    { unfold stores in Es. destruct (l_pc s); first [contradiction|lia]. }
    rewrite HL, nth_error_map, nth_error_seq.
    apply Nat.ltb_lt in Hlt. rewrite Hlt. cbn [option_map plus].
    unfold nth_load. rewrite nth_loaded_file_spec. reflexivity.
Qed.

(** X9. The static [next_file] is always 0, 1 or 2, so the indexing
    [files.begin()[next_file]] of line 44 stays inside the list; it is the
    number of loads so far modulo 3, and line 46 yields a valid index from
    any [int] whose successor does not overflow, a negative one included. *)
Theorem frame_source_index_in_bounds s :
  reachable s ->
  0 <= next_file s < files_size /\
  next_file s = Z.of_nat (List.length (loads (hist s))) mod 3 /\
  In (file_at (next_file s)) files /\
  forall v, - 2 ^ 31 <= v < 2 ^ 31 - 1 -> 0 <= advance_next_file v < files_size.
Proof.
  intros Hr. destruct (reachable_files_ok s Hr) as [H _].
  rewrite H. split; [apply next_file_in_range|].
  split; [apply next_file_after_spec|]. split.
  - change (In (nth_loaded_file (List.length (loads (hist s)))) files).
    rewrite nth_loaded_file_spec. apply nth_In.
    apply Nat.mod_upper_bound. discriminate.
  - intros v _. unfold advance_next_file. change files_size with 3.
    assert (Hm : 0 <= to_size_t (wrap_int (v + 1)) mod 3 < 3)
      by (apply Z.mod_pos_bound; lia).
    set (m := to_size_t (wrap_int (v + 1)) mod 3) in *.
    unfold wrap_int. rewrite Z.mod_small; lia.
Qed.

(** *** Pacing of the acquisition *)

(** The load thread is past [sleep_until] only when the clock has reached
    [next_wake], and a frame is loaded only then. *)
Definition pace_ok (s : state) : Prop :=
  match l_pc s with
  | L66 | L68 | L70 | L72 | L72b | L74 | L76 | L81 | L82 | L84 | L86 =>
      ts_ns (next_wake s) <= now s
  | _ => True
  end /\
  forall n, List.length (loads (hist s)) = S n ->
            ts_ns (initial_time s) + Z.of_nat n * 100000000 <= now s.

Lemma pace_ok_step a s s' :
  (forall t c, sleep_until t c = true -> ts_ns t <= c) ->
  wake_ok s -> frames_ok s -> pace_ok s -> step a s = Some s' -> pace_ok s'.
Proof.
  intros Hsleep Hw (_ & _ & _ & Hf) [H1 H2] H.
  unfold wake_ok in Hw. step_inv H.
  all: unfold pace_ok;
    cbn -[Z.of_nat Z.mul Z.add ts_ns interval file_at] in *; use_pc;
    cbn -[Z.of_nat Z.mul Z.add ts_ns interval file_at] in *.
  all: try (split; [first [assumption|exact I]|assumption]).
  - (* line 63 *) split; [|assumption]. apply Hsleep. assumption.
  - (* line 66 *) split; [assumption|]. intros n Hn.
    rewrite length_app, Nat.add_comm in Hn. cbn [List.length plus] in Hn.
    injection Hn as Hn. rewrite <- Hn, Hf.
    change (Z.of_nat (cycles s) * 100000000)
      with (Z.of_nat (cycles s) * ts_ns interval).
    rewrite <- Hw. exact H1.
  - (* the clock advances *)
    match goal with E : (0 <=? _) = true |- _ => apply Z.leb_le in E end.
    split.
    + destruct (l_pc s); try exact I; lia.
    + intros n Hn. specialize (H2 n Hn). lia.
Qed.

Lemma pace_ok_init start : pace_ok (init start).
Proof. split; [exact I|]. intros n Hn. discriminate Hn. Qed.

(** X10. If [sleep_until] returns only once the clock has reached its
    argument, frames are acquired at 10 Hz at most: when [n + 1] frames have
    been loaded, the clock is at least [n] periods of 100 ms past
    [initial_time]; and the load thread is between [sleep_until] and
    [timespec_add] only at or after [next_wake]. *)
Theorem acquisition_is_paced s n :
  (forall t c, sleep_until t c = true -> ts_ns t <= c) ->
  reachable s ->
  List.length (loads (hist s)) = S n ->
  ts_ns (initial_time s) + Z.of_nat n * 100000000 <= now s.
Proof.
  intros Hsleep Hr.
  assert (H : wake_ok s /\ frames_ok s /\ pace_ok s).
  { revert s Hr. apply reachable_invariant.
    - intros start _. split; [apply wake_ok_init|].
      split; [apply frames_ok_init|apply pace_ok_init].
    - intros a s s' (Hw & Hf & Hp) Hstep. split; [eapply wake_ok_step; eauto|].
      split; [eapply frames_ok_step; eauto|].
      eapply pace_ok_step; eauto. }
  destruct H as (_ & _ & _ & H). apply H.
Qed.

(** *** Writes to a slot *)

(** X11. The fields [has_data] and [data] of a channel are written only by
    the agent that owns the channel's mutex, and it still owns the mutex
    after the write: the handler, the clock and the agents outside the
    critical section leave both alone. *)
Theorem slot_written_under_mutex a s s' c :
  locks_ok s -> step a s = Some s' ->
  slot (chan c s') <> slot (chan c s) ->
  exists ag, a = Sched ag /\
             mutex (chan c s) = Some ag /\ mutex (chan c s') = Some ag.
Proof.
  intros [HL HP] H Hne. step_inv H.
  all: destruct c; cbn in Hne |- *;
    try (exfalso; apply Hne; reflexivity).
  all: eexists; split; [reflexivity|].
  all: match goal with
       | |- mutex (loaded ?t) = Some ?ag /\ _ =>
           assert (E : mutex (loaded t) = Some ag)
             by (apply HL; cbn; use_pc; reflexivity)
       | |- mutex (preprocessed ?t) = Some ?ag /\ _ =>
           assert (E : mutex (preprocessed t) = Some ag)
             by (apply HP; cbn; use_pc; reflexivity)
       end; split; exact E.
Qed.

(** *** Holding a mutex *)


(** *** The two consumers in sequence *)

(** X13. Were [loaded] marked occupied, one pass of the preprocess thread
    followed by one pass of the identify thread would take its frame, hand
    [preprocess_discard] of it through [preprocessed], and publish
    [identify_driveable] of that; both slots are empty afterwards, both
    mutexes free and both threads back at their loop heads. *)
Theorem consumers_compose s :
  running s = true ->
  p_pc s = P96 -> i_pc s = I147 ->
  mutex (loaded s) = None -> mutex (preprocessed s) = None ->
  has_data (loaded s) = true -> has_data (preprocessed s) = false ->
  exists s',
    run (steps Prep 14 ++ steps Ident 9) s = Some s' /\
    hist s' =
      [ print_data
          (out (identify_driveable (out (preprocess_discard (data (loaded s))))))
          (now s);
        EvProcess Ident
          (identify_driveable (out (preprocess_discard (data (loaded s)))));
        EvTake Preprocessed (out (preprocess_discard (data (loaded s))));
        EvPut Preprocessed (out (preprocess_discard (data (loaded s))));
        EvProcess Prep (preprocess_discard (data (loaded s)));
        EvTake Loaded (data (loaded s)) ] ++ hist s /\
    has_data (loaded s') = false /\ has_data (preprocessed s') = false /\
    mutex (loaded s') = None /\ mutex (preprocessed s') = None /\
    p_pc s' = P96 /\ i_pc s' = I147 /\
    l_pc s' = l_pc s /\ data (loaded s') = data (loaded s).
Proof.
  intros Hr Hp Hi Hl1 Hl2 Hd1 Hd2.
  destruct s as [rn [lm lda ldn lhd ldt] [pm pda pdn phd pdt]
                   it nf lpc nw li ppc pi po ipc ii io hpc clk hs cy sg].
  cbn in *. subst.
  eexists. split; [cbv; reflexivity|]. cbn. repeat split.
Qed.

(** *** The order of the frames through [preprocessed] *)

(** The frames stored into a channel and the frames taken from it, oldest
    first. *)
Fixpoint puts (c : chan_id) (h : list event) : list lidar_data :=
  match h with
  | [] => []
  | EvPut c' d :: rest =>
      if chan_id_eqb c c' then puts c rest ++ [d] else puts c rest
  | _ :: rest => puts c rest
  end.

Fixpoint takes (c : chan_id) (h : list event) : list lidar_data :=
  match h with
  | [] => []
  | EvTake c' d :: rest =>
      if chan_id_eqb c c' then takes c rest ++ [d] else takes c rest
  | _ :: rest => takes c rest
  end.

Definition held (c : chan_id) (h : list event) : list lidar_data :=
  match slot_value c h with
  | Some d => [d]
  | None => []
  end.

Lemma fifo_puts_takes c h : fifo c h -> puts c h = takes c h ++ held c h.
Proof.
  unfold held. induction h as [|e h IH]; [reflexivity|].
  destruct e as [f r|c' d|c' d|a r|d clk]; cbn [fifo puts takes slot_value];
    try exact IH.
  - intros [H1 H2]. specialize (IH H2).
    destruct (chan_id_eqb c c'); [|exact IH].
    rewrite IH, H1, !app_nil_r. reflexivity.
  - intros [H1 H2]. specialize (IH H2).
    destruct (chan_id_eqb c c'); [|exact IH].
    rewrite IH, H1, app_nil_r. reflexivity.
Qed.

(** X14. From any state where the [preprocessed] channel is consistent,
    after any schedule the frames taken from it are the frames stored into
    it, in the same order, none lost and none taken twice: the stores are
    the takes followed by the frame still held, if any. *)
Theorem preprocessed_frames_in_order sched s s' :
  locks_ok s -> preprocessed_ok s -> run sched s = Some s' ->
  puts Preprocessed (hist s')
  = takes Preprocessed (hist s') ++ held Preprocessed (hist s') /\
  (List.length (held Preprocessed (hist s')) <= 1)%nat /\
  (mutex (preprocessed s') = None ->
   has_data (preprocessed s') = negb (Nat.eqb (List.length (held Preprocessed (hist s'))) 0)).
Proof.
  intros HL Hp Hrun.
  destruct (preprocessed_is_single_slot sched s s' HL Hp Hrun) as [Hf Hc].
  split; [apply fifo_puts_takes; exact Hf|].
  unfold channel_invariant in Hc. cbn [chan] in Hc. unfold held.
  destruct (slot_value Preprocessed (hist s')); cbn; split; auto.
Qed.

(** *** What the handler leaves alone *)

Lemma signal_handler_frame s s' :
  signal_handler s = Some s' ->
  slot (loaded s') = slot (loaded s) /\
  slot (preprocessed s') = slot (preprocessed s) /\
  hist s' = hist s /\
  (l_pc s', p_pc s', i_pc s') = (l_pc s, p_pc s, i_pc s) /\
  (forall a, waits a (data_available (loaded s')) = true ->
             waits a (data_available (loaded s)) = true) /\
  (forall a, waits a (data_is_null (loaded s')) = true ->
             waits a (data_is_null (loaded s)) = true) /\
  (forall a, waits a (data_available (preprocessed s')) = true ->
             waits a (data_available (preprocessed s)) = true) /\
  (forall a, waits a (data_is_null (preprocessed s')) = true ->
             waits a (data_is_null (preprocessed s)) = true).
Proof.
  assert (Htl : forall a q, waits a (tl q) = true -> waits a q = true).
  { intros a [|b q]; cbn; [auto|]. intros ->. apply orb_true_r. }
  unfold signal_handler. intros H.
  destruct (h_pc s); break_step H; cbn; repeat split; auto.
Qed.

(** X15. However many of its statements the handler executes, it changes
    neither slot, calls no collaborator, moves no thread, and parks nobody:
    all it does to the threads is to clear [running] and to take waiters off
    the conditions. *)
Theorem handler_leaves_frames_alone k s s' :
  run (steps Handler k) s = Some s' ->
  slot (loaded s') = slot (loaded s) /\
  slot (preprocessed s') = slot (preprocessed s) /\
  hist s' = hist s /\
  (l_pc s', p_pc s', i_pc s') = (l_pc s, p_pc s, i_pc s) /\
  forall a, waiting a s' = true -> waiting a s = true.
Proof.
  revert s. induction k as [|k IH]; intros s H.
  - injection H as <-. repeat split. auto.
  - cbn [steps repeat run step] in H.
    destruct (signal_handler s) as [s1|] eqn:E; [|discriminate].
    apply signal_handler_frame in E.
    destruct E as (E1 & E2 & E3 & E4 & W1 & W2 & W3 & W4).
    destruct (IH s1 H) as (F1 & F2 & F3 & F4 & F5).
    split; [congruence|]. split; [congruence|]. split; [congruence|].
    split; [congruence|]. intros a Ha. apply F5 in Ha.
    destruct a; cbn in Ha |- *; auto.
    apply orb_true_iff in Ha. apply orb_true_iff.
    destruct Ha as [Ha|Ha]; [left|right]; auto.
Qed.

(** *** What can hold the load thread back *)


End Pipeline.

(** ** Concrete runs *)

Definition one_point : lidar_data := mkLidar [mkPoint 1 2 3].

(** A frame source that succeeds, one that reports an error and leaves the
    frame empty, and a filter that copies its input. *)
Definition sample_load (_ : string) : collab := mkCollab false one_point.
Definition pass_through (d : lidar_data) : collab := mkCollab false d.

(** The pipeline with these collaborators and helpers. *)
Definition sample_run :=
  run sample_load pass_through pass_through normalised_add clock_reached.
Definition sample_step :=
  step sample_load pass_through pass_through normalised_add clock_reached.
Definition sample_state_after :=
  state_after sample_load pass_through pass_through normalised_add clock_reached.


(** The clock read by [main]: 5.9 s. *)
Definition start0 : timespec := mkTimespec 5 900000000.

(** The load thread alone, from thread creation to the end of its first
    cycle (lines 58-86); the clock reaches the first wake time meanwhile. *)
Definition first_cycle : list action :=
  steps Load 2 ++ [Tick 100000000] ++ steps Load 8.


(** The SIGINT arrives when the identify thread is past its loop-head check
    and has not locked yet; the handler runs to completion, the other two
    threads return, and the identify thread starts its take. *)
Definition sigint_before_take : list action :=
  steps Ident 1 ++ steps Handler 9 ++ steps Load 2 ++ steps Prep 1 ++ steps Ident 3.

(** Both consumers park on their empty channels. *)
Definition consumers_parked : list action := steps Prep 4 ++ steps Ident 4.

(** Three cycles whose work takes 10 ms, 150 ms and 5 ms; the second overruns
    the 100 ms period, so the third wake is late. *)
Definition overrun_cycles : list action :=
  steps Load 2 ++ [Tick 100000000] ++
  steps Load 2 ++ [Tick 10000000] ++ steps Load 7 ++ [Tick 90000000] ++
  steps Load 2 ++ [Tick 150000000] ++ steps Load 7 ++
  steps Load 2 ++ [Tick 5000000] ++ steps Load 6.

(** Four cycles back to back, the clock far ahead. *)
Definition four_cycles : list action := Tick 10000000000 :: steps Load 37.

Lemma ts_ns_normalised_add a b : ts_ns (normalised_add a b) = ts_ns a + ts_ns b.
Proof.
  unfold normalised_add, ts_ns, NSEC_PER_SEC.
  destruct (1000000000 <=? tv_nsec a + tv_nsec b); cbn [tv_sec tv_nsec]; lia.
Qed.

Lemma start0_valid : timespec_valid start0.
Proof. unfold timespec_valid, start0, NSEC_PER_SEC. cbn. lia. Qed.

(** C1 (the code at the failing input). The load thread completes its first
    put: the frame is in [loaded.data] and the store is in the history, but
    [loaded.has_data] is still false, so the consumer that comes next finds
    the slot empty and parks. *)
Theorem load_put_leaves_slot_unoccupied :
  exists s s',
    sample_run first_cycle (init start0) = Some s /\
    hist s = [EvPut Loaded one_point;
              EvLoad "point_cloud1.txt" (sample_load "point_cloud1.txt")] /\
    data (loaded s) = one_point /\
    has_data (loaded s) = false /\
    cycles s = 1%nat /\
    sample_run (steps Prep 4) s = Some s' /\
    waiting Prep s' = true /\
    sample_step (Sched Prep) s' = None /\
    hist s' = hist s.
Proof.
  eexists. eexists. split; [vm_compute; reflexivity|].
  split; [reflexivity|]. split; [reflexivity|]. split; [reflexivity|].
  split; [reflexivity|]. split; [vm_compute; reflexivity|].
  repeat split.
Qed.

(** C2 (the code at the failing input). The invariant holds when the threads
    are created; after the first put of the load thread nobody is inside the
    critical section of [loaded], the channel holds a value, and
    [has_data] is false. *)
Theorem loaded_slot_breaks_channel_invariant :
  channel_invariant Loaded (init start0) /\
  exists s,
    sample_run first_cycle (init start0) = Some s /\
    mutex (loaded s) = None /\
    slot_value Loaded (hist s) = Some one_point /\
    has_data (loaded s) = false /\
    ~ channel_invariant Loaded s.
Proof.
  split; [intros _; reflexivity|].
  eexists. split; [vm_compute; reflexivity|].
  split; [reflexivity|]. split; [reflexivity|]. split; [reflexivity|].
  intros H. specialize (H eq_refl). discriminate H.
Qed.





(** C5, counterexample. Started at 5.0 s, the pipeline first wakes at 6.0 s:
    ten periods after the start, not one. *)
Lemma first_wake_one_second_after_start :
  timespec_valid (mkTimespec 5 0) /\
  initial_time (init (mkTimespec 5 0)) = mkTimespec 6 0 /\
  ts_ns (initial_time (init (mkTimespec 5 0)))
  = ts_ns (mkTimespec 5 0) + 10 * ts_ns interval /\
  ts_ns (initial_time (init (mkTimespec 5 0)))
  <> ts_ns (mkTimespec 5 0) + ts_ns interval /\
  next_wake (sample_state_after (steps Load 1) (init (mkTimespec 5 0)))
  = mkTimespec 6 0.
Proof.
  split; [unfold timespec_valid, NSEC_PER_SEC; cbn; lia|].
  repeat split. discriminate.
Qed.

(** C5, witness: started at 5.9 s, the first wake is at 6.0 s. *)
Lemma first_wake_is_next_whole_second_witness :
  timespec_valid start0 /\
  initial_time (init start0) = mkTimespec 6 0 /\
  ts_ns start0 < ts_ns (initial_time (init start0)) <= ts_ns start0 + NSEC_PER_SEC.
Proof.
  split; [exact start0_valid|].
  pose proof (first_wake_is_next_whole_second
                sample_load pass_through pass_through normalised_add clock_reached
                start0 start0_valid) as (H1 & H2 & _).
  split; [exact H1|exact H2].
Defined.





(** C10, witness: the fourth call (number 3) reads the first file again. *)
Lemma frame_source_round_robin_witness :
  map fst (loads (hist (sample_state_after four_cycles (init start0))))
  = ["point_cloud1.txt"; "point_cloud2.txt"; "point_cloud3.txt";
     "point_cloud1.txt"]%string /\
  nth_error files (3 mod 3) = Some "point_cloud1.txt"%string.
Proof.
  split; [vm_compute; reflexivity|].
  refine (proj1 (frame_source_round_robin
                   sample_load pass_through pass_through normalised_add clock_reached
                   (sample_state_after four_cycles (init start0))
                   3 "point_cloud1.txt"%string (sample_load "point_cloud1.txt")
                   _ _)).
  - exists start0, four_cycles. split; [exact start0_valid|].
    vm_compute. reflexivity.
  - vm_compute. reflexivity.
Defined.

(** ** Concrete runs for the further properties *)

(** The load thread has locked [loaded] for its first put and is at the
    test of line 70. *)
Definition load_in_put : list action :=
  steps Load 2 ++ [Tick 100000000] ++ steps Load 3.

(** The load thread is about to store its first frame (line 81). *)
Definition load_at_store : list action :=
  steps Load 2 ++ [Tick 100000000] ++ steps Load 4.

(** A state the program does not reach: thread creation with [loaded]
    marked occupied by a frame, as if line 81 were followed by
    [has_data = true]. *)
Definition occupied_start : state :=
  set_loaded (init start0) (mkChannel None [] [] true one_point).

(** One pass of the preprocess thread, then the identify thread up to and
    including its copy of line 162. *)
Definition pass_and_take : list action := steps Prep 14 ++ steps Ident 4.

(** X1, witness: the load thread is inside its put; the preprocess thread is
    not inside the critical section of [loaded]. *)
Lemma critical_sections_exclude_witness :
  in_cs_loaded Load (sample_state_after load_in_put (init start0)) = true /\
  in_cs_loaded Load (sample_state_after load_in_put (init start0))
  && in_cs_loaded Prep (sample_state_after load_in_put (init start0)) = false.
Proof.
  split; [reflexivity|].
  refine (proj1 (critical_sections_exclude
                   sample_load pass_through pass_through normalised_add
                   clock_reached
                   (sample_state_after load_in_put (init start0)) Load Prep _ _)).
  - exists start0, load_in_put. split; [exact start0_valid|].
    vm_compute. reflexivity.
  - discriminate.
Defined.



(** X3, witness: both consumers are parked, each alone on its condition; one
    signal empties the queue. *)
Lemma one_waiter_per_condition_witness :
  data_available (loaded (sample_state_after consumers_parked (init start0)))
  = [Prep] /\
  data_available (preprocessed (sample_state_after consumers_parked (init start0)))
  = [Ident] /\
  cond_signal
    (data_available (loaded (sample_state_after consumers_parked (init start0))))
  = [] /\
  cond_signal
    (data_available
       (preprocessed (sample_state_after consumers_parked (init start0))))
  = [].
Proof.
  split; [reflexivity|]. split; [reflexivity|].
  pose proof (one_waiter_per_condition
                sample_load pass_through pass_through normalised_add clock_reached
                (sample_state_after consumers_parked (init start0))) as H.
  destruct H as (_ & _ & _ & _ & _ & H1 & _ & H2).
  - exists start0, consumers_parked. split; [exact start0_valid|].
    vm_compute. reflexivity.
  - split; [exact H1|exact H2].
Defined.

(** X4, witness: the handler has executed line 20. *)
Lemma running_until_first_sigint_witness :
  running (sample_state_after (steps Handler 1) (init start0)) = false /\
  (running (sample_state_after (steps Handler 1) (init start0)) = true <->
   h_pc (sample_state_after (steps Handler 1) (init start0)) = Hidle /\
   sigints (sample_state_after (steps Handler 1) (init start0)) = O).
Proof.
  split; [reflexivity|].
  refine (proj1 (running_until_first_sigint
                   sample_load pass_through pass_through normalised_add
                   clock_reached
                   (sample_state_after (steps Handler 1) (init start0)) _)).
  exists start0, (steps Handler 1). split; [exact start0_valid|].
  vm_compute. reflexivity.
Defined.

(** X5, witness: the load thread has returned, after one SIGINT. *)
Lemma threads_return_only_after_sigint_witness :
  returned Load (sample_state_after sigint_before_take (init start0)) = true /\
  running (sample_state_after sigint_before_take (init start0)) = false /\
  sigints (sample_state_after sigint_before_take (init start0)) = 1%nat.
Proof.
  split; [reflexivity|].
  pose proof (threads_return_only_after_sigint
                sample_load pass_through pass_through normalised_add clock_reached
                (sample_state_after sigint_before_take (init start0)) Load) as H.
  destruct H as [H _].
  - exists start0, sigint_before_take. split; [exact start0_valid|].
    vm_compute. reflexivity.
  - reflexivity.
  - split; [exact H|reflexivity].
Defined.

(** X6, witness: after the first put and four steps of the preprocess thread,
    nothing has been taken. *)
Lemma consumers_never_get_a_frame_witness :
  cycles (sample_state_after (first_cycle ++ steps Prep 4) (init start0)) = 1%nat /\
  has_data (loaded (sample_state_after (first_cycle ++ steps Prep 4) (init start0)))
  = false /\
  forall c d,
    ~ In (EvTake c d)
        (hist (sample_state_after (first_cycle ++ steps Prep 4) (init start0))).
Proof.
  split; [reflexivity|].
  pose proof (consumers_never_get_a_frame
                sample_load pass_through pass_through normalised_add clock_reached
                (sample_state_after (first_cycle ++ steps Prep 4) (init start0)))
    as H.
  destruct H as (H1 & _ & H2 & _).
  - exists start0, (first_cycle ++ steps Prep 4). split; [exact start0_valid|].
    vm_compute. reflexivity.
  - split; [exact H1|exact H2].
Defined.

(** X7, witness: four cycles, none of them waited for a consumer. *)
Lemma load_thread_never_waits_witness :
  cycles (sample_state_after four_cycles (init start0)) = 4%nat /\
  waiting Load (sample_state_after four_cycles (init start0)) = false /\
  data_is_null (loaded (sample_state_after four_cycles (init start0))) = [].
Proof.
  split; [reflexivity|].
  pose proof (load_thread_never_waits
                sample_load pass_through pass_through normalised_add clock_reached
                (sample_state_after four_cycles (init start0))) as H.
  destruct H as (H1 & H2 & _).
  - exists start0, four_cycles. split; [exact start0_valid|].
    vm_compute. reflexivity.
  - split; [exact H1|exact H2].
Defined.

(** X8, witness: after four stores [loaded.data] is the frame of the fourth
    load, read from the first file again. *)
Lemma loaded_holds_latest_frame_witness :
  stores (sample_state_after four_cycles (init start0)) = 4%nat /\
  data (loaded (sample_state_after four_cycles (init start0)))
  = out (sample_load "point_cloud1.txt") /\
  nth_error (loads (hist (sample_state_after four_cycles (init start0)))) 3
  = Some ("point_cloud1.txt"%string, sample_load "point_cloud1.txt").
Proof.
  split; [reflexivity|].
  refine (loaded_holds_latest_frame
            sample_load pass_through pass_through normalised_add clock_reached
            (sample_state_after four_cycles (init start0)) _).
  exists start0, four_cycles. split; [exact start0_valid|].
  vm_compute. reflexivity.
Defined.

(** X10, witness: the third frame is loaded at least two periods after the
    first wake time. *)
Lemma acquisition_is_paced_witness :
  List.length (loads (hist (sample_state_after overrun_cycles (init start0))))
  = 3%nat /\
  ts_ns (initial_time (sample_state_after overrun_cycles (init start0)))
  + Z.of_nat 2 * 100000000
  <= now (sample_state_after overrun_cycles (init start0)).
Proof.
  split; [reflexivity|].
  refine (acquisition_is_paced
            sample_load pass_through pass_through normalised_add clock_reached
            ts_ns_normalised_add
            (sample_state_after overrun_cycles (init start0)) 2 _ _ _).
  - intros t c H. apply Z.leb_le. exact H.
  - exists start0, overrun_cycles. split; [exact start0_valid|].
    vm_compute. reflexivity.
  - reflexivity.
Defined.

(** X9, witness: after four loads [next_file] is 1; line 46 yields a valid
    index from -2. *)
Lemma frame_source_index_in_bounds_witness :
  List.length (loads (hist (sample_state_after four_cycles (init start0))))
  = 4%nat /\
  next_file (sample_state_after four_cycles (init start0)) = 1 /\
  0 <= next_file (sample_state_after four_cycles (init start0)) < files_size /\
  0 <= advance_next_file (-2) < files_size.
Proof.
  split; [reflexivity|]. split; [reflexivity|].
  pose proof (frame_source_index_in_bounds
                sample_load pass_through pass_through normalised_add clock_reached
                (sample_state_after four_cycles (init start0))) as H.
  destruct H as (H1 & _ & _ & H2).
  - exists start0, four_cycles. split; [exact start0_valid|].
    vm_compute. reflexivity.
  - split; [exact H1|apply H2; lia].
Defined.

Lemma occupied_start_locks_ok : locks_ok occupied_start.
Proof.
  split; intros [ | | | ]; vm_compute; split; discriminate || reflexivity.
Qed.

Lemma occupied_start_preprocessed_ok : preprocessed_ok occupied_start.
Proof. repeat split; try discriminate. Qed.

(** X14, witness: one frame stored into [preprocessed] and taken from it. *)
Lemma preprocessed_frames_in_order_witness :
  puts Preprocessed (hist (sample_state_after pass_and_take occupied_start))
  = [one_point] /\
  takes Preprocessed (hist (sample_state_after pass_and_take occupied_start))
  = [one_point] /\
  puts Preprocessed (hist (sample_state_after pass_and_take occupied_start))
  = takes Preprocessed (hist (sample_state_after pass_and_take occupied_start))
    ++ held Preprocessed (hist (sample_state_after pass_and_take occupied_start)).
Proof.
  split; [reflexivity|]. split; [reflexivity|].
  refine (proj1 (preprocessed_frames_in_order
                   sample_load pass_through pass_through normalised_add
                   clock_reached pass_and_take occupied_start
                   (sample_state_after pass_and_take occupied_start) _ _ _)).
  - exact occupied_start_locks_ok.
  - exact occupied_start_preprocessed_ok.
  - vm_compute. reflexivity.
Defined.

(** X13, witness: the frame of [occupied_start] goes through both consumers to
    the sink. *)
Lemma consumers_compose_witness :
  exists s',
    sample_run (steps Prep 14 ++ steps Ident 9) occupied_start = Some s' /\
    hist s' =
      [ EvPublish one_point (ts_ns start0);
        EvProcess Ident (pass_through one_point);
        EvTake Preprocessed one_point;
        EvPut Preprocessed one_point;
        EvProcess Prep (pass_through one_point);
        EvTake Loaded one_point ] /\
    has_data (loaded s') = false /\ has_data (preprocessed s') = false.
Proof.
  destruct (consumers_compose
              sample_load pass_through pass_through normalised_add clock_reached
              occupied_start)
    as (s' & H1 & H2 & H3 & H4 & _); try reflexivity.
  exists s'. split; [exact H1|]. split; [exact H2|]. split; [exact H3|exact H4].
Defined.

(** X11, witness: the store of line 81 is made by the owner of the mutex. *)
Lemma slot_written_under_mutex_witness :
  slot (chan Loaded (sample_state_after (load_at_store ++ steps Load 1) (init start0)))
  = (false, one_point) /\
  exists ag,
    Sched Load = Sched ag /\
    mutex (chan Loaded (sample_state_after load_at_store (init start0))) = Some ag /\
    mutex (chan Loaded
             (sample_state_after (load_at_store ++ steps Load 1) (init start0)))
    = Some ag.
Proof.
  split; [reflexivity|].
  refine (slot_written_under_mutex
            sample_load pass_through pass_through normalised_add clock_reached
            (Sched Load)
            (sample_state_after load_at_store (init start0))
            (sample_state_after (load_at_store ++ steps Load 1) (init start0))
            Loaded _ _ _).
  - split; intros [ | | | ]; vm_compute; split; discriminate || reflexivity.
  - vm_compute. reflexivity.
  - vm_compute. discriminate.
Defined.

(** X15, witness: a whole run of the handler while both consumers are parked. *)
Lemma handler_leaves_frames_alone_witness :
  running (sample_state_after (consumers_parked ++ steps Handler 9) (init start0))
  = false /\
  hist (sample_state_after (consumers_parked ++ steps Handler 9) (init start0))
  = hist (sample_state_after consumers_parked (init start0)) /\
  slot (loaded
          (sample_state_after (consumers_parked ++ steps Handler 9) (init start0)))
  = slot (loaded (sample_state_after consumers_parked (init start0))).
Proof.
  split; [reflexivity|].
  pose proof (handler_leaves_frames_alone
                sample_load pass_through pass_through normalised_add clock_reached
                9
                (sample_state_after consumers_parked (init start0))
                (sample_state_after (consumers_parked ++ steps Handler 9)
                   (init start0))) as H.
  destruct H as (H1 & _ & H2 & _).
  - vm_compute. reflexivity.
  - split; [exact H2|exact H1].
Defined.


(** ** The jitter monitor *)

Module Jitter.

Local Open Scope Q_scope.

(** [struct jitter_t] as the header declares it: the number of samples (a
    [size_t]) and two running sums.  The sums are doubles in the header; here
    they are exact rationals, so rounding is left out. *)
Record jitter_t := mkJitter { num : Z; sum : Q; sum_of_squares : Q }.

(** Modelled from the spec: the header only declares [jitter_init],
    [jitter_add_datapoint] and [jitter_get]; their definitions are not among
    the sources.  The accumulator starts empty ([count] is the header's
    [num]). *)
Definition jitter_init : jitter_t := mkJitter 0 0 0.

(** Modelled from the spec: [record(sample)] is not among the sources; it
    increments [count], adds [sample] to [sum] and [sample^2] to
    [sum_of_squares]. *)
Definition record (s : jitter_t) (sample : Q) : jitter_t :=
  mkJitter (to_size_t (num s + 1)) (sum s + sample)
    (sum_of_squares s + sample * sample).

(** Modelled from the spec: [mean()] is not among the sources; it is
    [sum / count], and reports no data ([None]) when [count == 0]. *)
Definition mean (s : jitter_t) : option Q :=
  if (num s =? 0)%Z then None else Some (sum s / inject_Z (num s)).

(** Modelled from the spec: [variance()] is not among the sources; it is
    [sum_of_squares / count - mean()^2], and reports no data when
    [count == 0]. *)
Definition variance (s : jitter_t) : option Q :=
  match mean s with
  | None => None
  | Some m => Some (sum_of_squares s / inject_Z (num s) - m * m)
  end.

Definition record_all (samples : list Q) : jitter_t :=
  fold_left record samples jitter_init.

Definition qsum (l : list Q) : Q := fold_right Qplus 0 l.

Lemma sum_fold_record l s : sum (fold_left record l s) == sum s + qsum l.
Proof.
  revert s. induction l as [|x l IH]; intros s; cbn [fold_left qsum fold_right].
  - ring.
  - rewrite IH. cbn [record sum]. fold (qsum l). ring.
Qed.

Lemma sum_of_squares_fold_record l s :
  sum_of_squares (fold_left record l s)
  == sum_of_squares s + qsum (map (fun x => x * x) l).
Proof.
  revert s. induction l as [|x l IH]; intros s;
    cbn [fold_left qsum fold_right map].
  - ring.
  - rewrite IH. cbn [record sum_of_squares]. fold (qsum (map (fun x => x * x) l)).
    ring.
Qed.

Lemma num_fold_record l s :
  (num s = to_size_t (num s))%Z ->
  num (fold_left record l s) = to_size_t (num s + Z.of_nat (List.length l)).
Proof.
  revert s. induction l as [|x l IH]; intros s Hs; cbn [fold_left List.length].
  - rewrite Z.add_0_r. exact Hs.
  - rewrite IH.
    + cbn [record num]. unfold to_size_t.
      rewrite Zplus_mod_idemp_l. f_equal. lia.
    + cbn [record num]. unfold to_size_t. rewrite Z.mod_mod; [reflexivity|lia].
Qed.

(** Sum of the squared deviations from [m]. *)
Lemma qsum_deviations l m :
  qsum (map (fun x => (x - m) * (x - m)) l)
  == qsum (map (fun x => x * x) l) - (2 # 1) * m * qsum l
     + inject_Z (Z.of_nat (List.length l)) * m * m.
Proof.
  induction l as [|x l IH].
  - cbn. ring.
  - cbn [map qsum fold_right List.length].
    fold (qsum (map (fun x => (x - m) * (x - m)) l)).
    fold (qsum (map (fun x => x * x) l)). fold (qsum l).
    rewrite IH. rewrite Nat2Z.inj_succ. unfold Z.succ. rewrite inject_Z_plus.
    ring.
Qed.

(** What [variance] computes is the population variance of the recorded
    samples: the mean of the squared deviations from [mean]. *)
Lemma variance_is_population_variance l m v :
  (0 < Z.of_nat (List.length l) < 2 ^ 64)%Z ->
  mean (record_all l) = Some m -> variance (record_all l) = Some v ->
  m == qsum l / inject_Z (Z.of_nat (List.length l)) /\
  v == qsum (map (fun x => (x - m) * (x - m)) l)
       / inject_Z (Z.of_nat (List.length l)).
Proof.
  intros Hn Hm Hv. unfold variance in Hv. rewrite Hm in Hv.
  injection Hv as <-. unfold mean in Hm.
  assert (En : num (record_all l) = Z.of_nat (List.length l)).
  { unfold record_all. rewrite num_fold_record; [|reflexivity].
    cbn [jitter_init num]. unfold to_size_t. rewrite Z.mod_small; lia. }
  rewrite En in *.
  destruct (Z.of_nat (List.length l) =? 0)%Z eqn:E0; [discriminate|].
  injection Hm as <-.
  assert (Hnz : ~ inject_Z (Z.of_nat (List.length l)) == 0).
  { intros H. unfold Qeq in H. cbn in H. lia. }
  assert (Es : sum (record_all l) == qsum l).
  { unfold record_all. rewrite sum_fold_record. cbn. ring. }
  assert (Eq : sum_of_squares (record_all l) == qsum (map (fun x => x * x) l)).
  { unfold record_all. rewrite sum_of_squares_fold_record. cbn. ring. }
  split.
  - rewrite Es. reflexivity.
  - rewrite qsum_deviations. rewrite Es, Eq. field. exact Hnz.
Qed.


(** The same formula on the header's doubles: with count 3, sum 6 and
    sum of squares 20 (all three exact), binary64 division and subtraction
    give the double just above the one nearest to 8/3. *)
Definition variance_binary64 (count sum sum_of_squares : float) : float :=
  (sum_of_squares / count - (sum / count) * (sum / count))%float.

Remark variance_binary64_rounding :
  variance_binary64 3 6 20 = 0x1.5555555555556p+1%float /\
  (8 / 3)%float = 0x1.5555555555555p+1%float.
Proof. split; reflexivity. Qed.

End Jitter.
